(** * FitIt backend: the generic entity repository

    A shallow embedding of [BaseRepository] (repositories/base.repository.ts)
    together with the pieces it calls: the error classes of utils/errors.ts,
    the logger of utils/logger.ts and the document client configured in
    config/dynamodb.ts.

    The repository methods are [async] but never run two store commands at
    once, so each method is a function of the world it starts in (the table
    and the console) and of what the environment contributes to that one
    call: the reading of the clock and the outcome of the transport. The
    protected helpers [queryByIndex] and [scanWithFilter] are not embedded. *)

From stdpp Require Import gmap strings list fin_maps pretty.
From Stdlib Require Import ZArith Ascii.

#[local] Set Warnings "-register-all".
#[local] Open Scope string_scope.

(** ** Values and objects *)

(** Attribute values as the entities of this application hold them. The
    repository never computes with a number, so integers stand for them. A
    property whose value is [undefined] is treated as an absent property. *)
Inductive value : Type :=
  | VNull
  | VBool (b : bool)
  | VNum (n : Z)
  | VStr (s : string)
  | VList (items : list value)
  | VMap (props : list (string * value)).

(** A JavaScript object: its own enumerable properties in enumeration
    order. Every key occurs once ([is_object]). *)
Abbreviation JsObject := (list (string * value)).

Definition keys (o : JsObject) : list string := o.*1.

Definition is_object (o : JsObject) : Prop := NoDup (keys o).

Fixpoint obj_get (k : string) (o : JsObject) : option value :=
  match o with
  | [] => None
  | (k', v) :: o' => if decide (k' = k) then Some v else obj_get k o'
  end.

(** [{ ...o, k: v }] for a key [k] that is not an array index: an existing
    property keeps its place and takes the new value, a new one goes last. *)
Fixpoint obj_set (k : string) (v : value) (o : JsObject) : JsObject :=
  match o with
  | [] => [(k, v)]
  | (k', v') :: o' =>
      if decide (k' = k) then (k, v) :: o' else (k', v') :: obj_set k v o'
  end.

Definition Object_entries (o : JsObject) : list (string * value) := o.

(** An item as the table holds it and as the store returns it: attributes
    by name, in no particular order. *)
Abbreviation StoredItem := (gmap string value).
Abbreviation Table := (gmap string StoredItem).

(** ** config/dynamodb.ts: marshalling *)

(** [marshallOptions.convertEmptyValues: true]: empty strings become null,
    at any depth. ([removeUndefinedValues] has nothing to remove here, and
    [wrapNumbers: false] hands numbers back as they were given.) *)
Fixpoint marshall (v : value) : value :=
  match v with
  | VStr s => if decide (s = "") then VNull else VStr s
  | VList items => VList (List.map marshall items)
  | VMap props => VMap (List.map (fun kv => (fst kv, marshall (snd kv))) props)
  | _ => v
  end.

Definition marshallItem (o : JsObject) : StoredItem :=
  marshall <$> list_to_map o.

(** The object read as an unordered record: what a comparison of two
    entities looks at. *)
Definition obj_to_item (o : JsObject) : StoredItem := list_to_map o.

Fixpoint noEmptyString (v : value) : bool :=
  match v with
  | VStr s => negb (String.eqb s "")
  | VList items => forallb noEmptyString items
  | VMap props => forallb (fun kv => noEmptyString (snd kv)) props
  | _ => true
  end.

(** ** utils/errors.ts *)

Module Errors.

Record AppError : Type := mkAppError {
  name : string;
  message : string;
  statusCode : Z;
  code : string;
  details : option JsObject;
  isOperational : bool
}.

(** [id] is an optional parameter; the message tests its truthiness, the
    details carry it as given. *)
Definition NotFoundError (resource : string) (id : option string) : AppError :=
  let message :=
    match id with
    | Some i =>
        if decide (i = "") then resource +:+ " not found"
        else resource +:+ " with ID '" +:+ i +:+ "' not found"
    | None => resource +:+ " not found"
    end in
  mkAppError "NotFoundError" message 404 "NOT_FOUND"
    (Some (("resource", VStr resource) ::
           match id with Some i => [("id", VStr i)] | None => [] end))
    true.

Definition ValidationError (message : string) (details : option JsObject) : AppError :=
  mkAppError "ValidationError" message 400 "VALIDATION_ERROR" details true.

Definition DatabaseError (message : string) : AppError :=
  mkAppError "DatabaseError" message 500 "DATABASE_ERROR" None false.

Definition isOperationalError (error : AppError) : bool := isOperational error.

End Errors.

(** ** utils/logger.ts *)

Module Logger.

Inductive LogLevel : Type := DEBUG | INFO | WARN | ERROR.

Definition LOG_LEVEL_PRIORITY (l : LogLevel) : Z :=
  match l with DEBUG => 0 | INFO => 1 | WARN => 2 | ERROR => 3 end.

Record LogEntry : Type := mkLogEntry {
  timestamp : string;
  level : LogLevel;
  message : string;
  correlationId : option string;
  data : option JsObject
}.

(** The console method a line goes to. *)
Inductive Stream : Type := console_error | console_warn | console_log.

(** The console keeps the entry each line is formatted from, oldest first. *)
Abbreviation Console := (list (Stream * LogEntry)).

Section Config.

(** [isDevelopment] comes from config/index.ts. *)
Variable isDevelopment : bool.

Definition currentLogLevel : LogLevel := if isDevelopment then DEBUG else INFO.

Definition shouldLog (level : LogLevel) : bool :=
  (LOG_LEVEL_PRIORITY currentLogLevel <=? LOG_LEVEL_PRIORITY level)%Z.

(** [timestamp] is the logger's own reading of the clock. *)
Definition log (level : LogLevel) (message : string) (data : option JsObject)
    (correlationId : option string) (timestamp : string) (out : Console) : Console :=
  if negb (shouldLog level) then out
  else
    let entry := mkLogEntry timestamp level message correlationId data in
    match level with
    | ERROR => out ++ [(console_error, entry)]
    | WARN => out ++ [(console_warn, entry)]
    | _ => out ++ [(console_log, entry)]
    end.

Definition debug (message : string) (data : JsObject) := log DEBUG message (Some data) None.

Definition info (message : string) (data : JsObject) := log INFO message (Some data) None.

Definition warn (message : string) (data : JsObject) := log WARN message (Some data) None.

Definition error (message : string) (data : JsObject) := log ERROR message (Some data) None.

End Config.

End Logger.

(** ** The document client

    The store is an external collaborator. Its commands follow the contract
    the repository relies on: a table keyed by the string attribute [id]
    (the partition key of the tables in the database stack), writes guarded
    by a condition on the existence of the item, a "condition failed"
    outcome that is told apart from every other failure by its name, and
    [SET] update expressions over placeholder names and values. Every other
    way a command can fail (network, throttling, a request the service
    refuses) is the [fault] the environment hands to [send]. *)

Module DynamoDB.

(** What [send] throws. *)
Record ClientError : Type := mkClientError {
  name : string;
  message : string
}.

(** [String(error)] *)
Definition String_ (error : ClientError) : string :=
  if decide (name error = "") then message error
  else if decide (message error = "") then name error
  else name error +:+ ": " +:+ message error.

Definition ConditionalCheckFailedException : ClientError :=
  mkClientError "ConditionalCheckFailedException" "The conditional request failed".

Definition ValidationException (message : string) : ClientError :=
  mkClientError "ValidationException" message.

Inductive Command : Type :=
  | GetCommand (TableName : string) (Key : string)
  | ScanCommand (TableName : string) (Limit : option Z)
  | PutCommand (TableName : string) (Item : JsObject) (ConditionExpression : string)
  | UpdateCommand (TableName : string) (Key : string) (UpdateExpression : string)
      (ExpressionAttributeNames : gmap string string)
      (ExpressionAttributeValues : gmap string value)
      (ConditionExpression : string) (ReturnValues : string)
  | DeleteCommand (TableName : string) (Key : string) (ConditionExpression : string).

Record Output : Type := mkOutput {
  Item : option StoredItem;
  Items : option (list StoredItem);
  Attributes : option StoredItem
}.

Definition noOutput : Output := mkOutput None None None.

(** The two conditions the repository uses. Every stored item carries its
    key attribute, so [id] exists exactly when the item does. *)
Definition eval_condition (cond : string) (existing : option StoredItem) : option bool :=
  if decide (cond = "attribute_exists(id)") then
    Some (match existing with Some _ => true | None => false end)
  else if decide (cond = "attribute_not_exists(id)") then
    Some (match existing with Some _ => false | None => true end)
  else None.

(** *** Reading a [SET] expression *)

Definition placeholder_char (c : ascii) : bool :=
  negb (Ascii.eqb c " ") && negb (Ascii.eqb c ",") && negb (Ascii.eqb c "=").

(** The longest prefix of [s] made of characters [p] accepts, and the rest. *)
Fixpoint span (p : ascii -> bool) (s : string) : string * string :=
  match s with
  | String c s' =>
      if p c then let '(tok, rest) := span p s' in (String c tok, rest)
      else ("", s)
  | EmptyString => ("", "")
  end.

Fixpoint strip_prefix (p s : string) : option string :=
  match p, s with
  | EmptyString, _ => Some s
  | String a p', String b s' => if Ascii.eqb a b then strip_prefix p' s' else None
  | String _ _, EmptyString => None
  end.

(** One clause [lhs = rhs], and the text after it. *)
Definition parse_clause (s : string) : option ((string * string) * string) :=
  let '(lhs, r1) := span placeholder_char s in
  r2 ← strip_prefix " = " r1;
  let '(rhs, r3) := span placeholder_char r2 in
  if decide (lhs = "") then None
  else if decide (rhs = "") then None
  else Some ((lhs, rhs), r3).

(** [lhs = rhs, lhs = rhs, ...]; each clause uses up some of the text, so
    the length of the text is fuel enough. *)
Fixpoint parse_clauses (fuel : nat) (s : string) : option (list (string * string)) :=
  match fuel with
  | O => None
  | S fuel' =>
      '(clause, r) ← parse_clause s;
      if decide (r = "") then Some [clause]
      else
        r' ← strip_prefix ", " r;
        rest ← parse_clauses fuel' r';
        Some (clause :: rest)
  end.

Definition parse_update_expression (s : string) : option (list (string * string)) :=
  r ← strip_prefix "SET " s;
  parse_clauses (String.length r) r.

(** A clause names its attribute and its value through the two tables; the
    key attribute cannot be the target of an update. *)
Definition resolve_clause (names : gmap string string) (values : gmap string value)
    (clause : string * string) : option (string * value) :=
  attr ← names !! clause.1;
  v ← values !! clause.2;
  if decide (attr = "id") then None else Some (attr, v).

Definition apply_set (assignments : list (string * value)) (item : StoredItem) : StoredItem :=
  foldl (fun acc kv => <[kv.1 := kv.2]> acc) item assignments.

(** What a scan reads: the items of the table, in the order the store
    keeps them. The repository reads one page, which is taken to hold the
    whole table. *)
Definition scan_items (t : Table) : list StoredItem := (map_to_list t).*2.

(** One command against the table. A fault reaches the caller before
    anything is written. *)
Definition send (cmd : Command) (fault : option ClientError) (t : Table)
    : (ClientError + Output) * Table :=
  match fault with
  | Some err => (inl err, t)
  | None =>
      match cmd with
      | GetCommand _ key =>
          (inr (mkOutput (t !! key) None None), t)
      | ScanCommand _ None =>
          (inr (mkOutput None (Some (scan_items t)) None), t)
      | ScanCommand _ (Some n) =>
          if (1 <=? n)%Z then
            (inr (mkOutput None (Some (take (Z.to_nat n) (scan_items t))) None), t)
          else (inl (ValidationException "Limit must be at least 1"), t)
      | PutCommand _ item cond =>
          match obj_get "id" item with
          | Some (VStr key) =>
              match eval_condition cond (t !! key) with
              | Some true => (inr noOutput, <[key := marshallItem item]> t)
              | Some false => (inl ConditionalCheckFailedException, t)
              | None => (inl (ValidationException "Invalid ConditionExpression"), t)
              end
          | _ => (inl (ValidationException "Missing the key id in the item"), t)
          end
      | UpdateCommand _ key expr names values cond ret =>
          match parse_update_expression expr
                  ≫= mapM (resolve_clause names (marshall <$> values)) with
          | Some assignments =>
              match eval_condition cond (t !! key) with
              | Some true =>
                  let old := default {["id" := marshall (VStr key)]} (t !! key) in
                  let new := apply_set assignments old in
                  (inr (mkOutput None None
                          (if decide (ret = "ALL_NEW") then Some new else None)),
                   <[key := new]> t)
              | Some false => (inl ConditionalCheckFailedException, t)
              | None => (inl (ValidationException "Invalid ConditionExpression"), t)
              end
          | None => (inl (ValidationException "Invalid UpdateExpression"), t)
          end
      | DeleteCommand _ key cond =>
          match eval_condition cond (t !! key) with
          | Some true => (inr noOutput, delete key t)
          | Some false => (inl ConditionalCheckFailedException, t)
          | None => (inl (ValidationException "Invalid ConditionExpression"), t)
          end
      end
  end.

End DynamoDB.

(** ** repositories/base.repository.ts *)

(** The world a call runs in. *)
Record World : Type := mkWorld {
  table : Table;
  console : Logger.Console
}.

(** What the environment contributes to one call: [now] is
    [new Date().toISOString()] as the method reads it, [logTime] the same
    as the logger reads it, [fault] the failure of the transport, if any.
    No method sends more than one command or logs more than one line. *)
Record Env : Type := mkEnv {
  now : string;
  logTime : string;
  fault : option DynamoDB.ClientError
}.

(** How a call ends. *)
Inductive Outcome (A : Type) : Type :=
  | Returned (a : A)
  | Thrown (e : Errors.AppError).

Arguments Returned {A} a.
Arguments Thrown {A} e.

Module BaseRepository.

(** [`#attr${index}`] and [`:val${index}`] *)
Definition attrName (index : nat) : string := "#attr" +:+ pretty index.

Definition attrValue (index : nat) : string := ":val" +:+ pretty index.

Record UpdateParts : Type := mkUpdateParts {
  updateExpressionParts : list string;
  expressionAttributeNames : gmap string string;
  expressionAttributeValues : gmap string value
}.

Definition noParts : UpdateParts := mkUpdateParts [] ∅ ∅.

(** The body of the [forEach] callback in [update]. *)
Definition addPart (acc : UpdateParts) (key : string) (v : value) (index : nat) : UpdateParts :=
  if decide (key = "id") then acc
  else
    mkUpdateParts
      (updateExpressionParts acc ++ [attrName index +:+ " = " +:+ attrValue index])
      (<[attrName index := key]> (expressionAttributeNames acc))
      (<[attrValue index := v]> (expressionAttributeValues acc)).

(** [entries.forEach(([key, value], index) => ...)], from [index] on. *)
Fixpoint forEach_entries (entries : list (string * value)) (index : nat)
    (acc : UpdateParts) : UpdateParts :=
  match entries with
  | [] => acc
  | (key, v) :: rest => forEach_entries rest (S index) (addPart acc key v index)
  end.

Definition buildUpdate (updatesWithTimestamp : JsObject) : UpdateParts :=
  forEach_entries (Object_entries updatesWithTimestamp) 0 noParts.

(** [parts.join(', ')] *)
Fixpoint join (sep : string) (parts : list string) : string :=
  match parts with
  | [] => ""
  | [p] => p
  | p :: rest => p +:+ sep +:+ join sep rest
  end.

(** [{ id: item.id }] *)
Definition idData (item : JsObject) : JsObject :=
  match obj_get "id" item with
  | Some v => [("id", v)]
  | None => []
  end.

Section Repository.

Variable isDevelopment : bool.

(** The two abstract members of the class. *)
Variable tableName : string.

Variable entityName : string.

Definition failureData (id : option string) (error : DynamoDB.ClientError) : JsObject :=
  ("tableName", VStr tableName) ::
  match id with Some i => [("id", VStr i)] | None => [] end ++
  [("error", VStr (DynamoDB.String_ error))].

Definition getById (id : string) (e : Env) (w : World)
    : Outcome (option StoredItem) * World :=
  match DynamoDB.send (DynamoDB.GetCommand tableName id) (fault e) (table w) with
  | (inr result, t) =>
      (Returned (DynamoDB.Item result), mkWorld t (console w))
  | (inl error, t) =>
      (Thrown (Errors.DatabaseError ("Failed to retrieve " +:+ entityName)),
       mkWorld t
         (Logger.error isDevelopment ("Failed to get " +:+ entityName +:+ " by ID")
            (failureData (Some id) error) (logTime e) (console w)))
  end.

Definition getByIdOrThrow (id : string) (e : Env) (w : World)
    : Outcome StoredItem * World :=
  match getById id e w with
  | (Returned (Some item), w') => (Returned item, w')
  | (Returned None, w') => (Thrown (Errors.NotFoundError entityName (Some id)), w')
  | (Thrown err, w') => (Thrown err, w')
  end.

(** [limit && { Limit: limit }]: the property is there when [limit] is
    truthy. *)
Definition scanLimit (limit : option Z) : option Z :=
  match limit with
  | Some n => if decide (n = 0%Z) then None else Some n
  | None => None
  end.

Definition getAll (limit : option Z) (e : Env) (w : World)
    : Outcome (list StoredItem) * World :=
  match DynamoDB.send (DynamoDB.ScanCommand tableName (scanLimit limit))
          (fault e) (table w) with
  | (inr result, t) =>
      (Returned (default [] (DynamoDB.Items result)), mkWorld t (console w))
  | (inl error, t) =>
      (Thrown (Errors.DatabaseError ("Failed to retrieve " +:+ entityName +:+ " list")),
       mkWorld t
         (Logger.error isDevelopment ("Failed to scan " +:+ entityName)
            (failureData None error) (logTime e) (console w)))
  end.

Definition create (item : JsObject) (e : Env) (w : World)
    : Outcome JsObject * World :=
  let itemWithTimestamps :=
    obj_set "updatedAt" (VStr (now e)) (obj_set "createdAt" (VStr (now e)) item) in
  match DynamoDB.send
          (DynamoDB.PutCommand tableName itemWithTimestamps "attribute_not_exists(id)")
          (fault e) (table w) with
  | (inr _, t) =>
      (Returned itemWithTimestamps,
       mkWorld t
         (Logger.info isDevelopment ("Created " +:+ entityName) (idData item)
            (logTime e) (console w)))
  | (inl error, t) =>
      if decide (DynamoDB.name error = "ConditionalCheckFailedException") then
        (Thrown (Errors.DatabaseError (entityName +:+ " with this ID already exists")),
         mkWorld t (console w))
      else
        (Thrown (Errors.DatabaseError ("Failed to create " +:+ entityName)),
         mkWorld t
           (Logger.error isDevelopment ("Failed to create " +:+ entityName)
              (("tableName", VStr tableName) :: idData item ++
               [("error", VStr (DynamoDB.String_ error))])
              (logTime e) (console w)))
  end.

(** [result.Attributes as T]: whatever the store answered. *)
Definition update (id : string) (updates : JsObject) (e : Env) (w : World)
    : Outcome (option StoredItem) * World :=
  let updatesWithTimestamp := obj_set "updatedAt" (VStr (now e)) updates in
  let built := buildUpdate updatesWithTimestamp in
  if decide (length (updateExpressionParts built) = 0) then
    match getByIdOrThrow id e w with
    | (Returned item, w') => (Returned (Some item), w')
    | (Thrown err, w') => (Thrown err, w')
    end
  else
    match DynamoDB.send
            (DynamoDB.UpdateCommand tableName id
               ("SET " +:+ join ", " (updateExpressionParts built))
               (expressionAttributeNames built)
               (expressionAttributeValues built)
               "attribute_exists(id)" "ALL_NEW")
            (fault e) (table w) with
    | (inr result, t) =>
        (Returned (DynamoDB.Attributes result),
         mkWorld t
           (Logger.info isDevelopment ("Updated " +:+ entityName) [("id", VStr id)]
              (logTime e) (console w)))
    | (inl error, t) =>
        if decide (DynamoDB.name error = "ConditionalCheckFailedException") then
          (Thrown (Errors.NotFoundError entityName (Some id)), mkWorld t (console w))
        else
          (Thrown (Errors.DatabaseError ("Failed to update " +:+ entityName)),
           mkWorld t
             (Logger.error isDevelopment ("Failed to update " +:+ entityName)
                (failureData (Some id) error) (logTime e) (console w)))
    end.

Definition delete (id : string) (e : Env) (w : World) : Outcome unit * World :=
  match DynamoDB.send (DynamoDB.DeleteCommand tableName id "attribute_exists(id)")
          (fault e) (table w) with
  | (inr _, t) =>
      (Returned tt,
       mkWorld t
         (Logger.info isDevelopment ("Deleted " +:+ entityName) [("id", VStr id)]
            (logTime e) (console w)))
  | (inl error, t) =>
      if decide (DynamoDB.name error = "ConditionalCheckFailedException") then
        (Thrown (Errors.NotFoundError entityName (Some id)), mkWorld t (console w))
      else
        (Thrown (Errors.DatabaseError ("Failed to delete " +:+ entityName)),
         mkWorld t
           (Logger.error isDevelopment ("Failed to delete " +:+ entityName)
              (failureData (Some id) error) (logTime e) (console w)))
  end.

End Repository.

End BaseRepository.

(** * The vocabulary of the properties *)

Fixpoint all_chars (p : ascii -> bool) (s : string) : bool :=
  match s with
  | EmptyString => true
  | String c s' => p c && all_chars p s'
  end.

(** The text is empty or starts with a character [p] refuses. *)
Definition stops (p : ascii -> bool) (s : string) : Prop :=
  match s with
  | EmptyString => True
  | String c _ => p c = false
  end.

Definition is_digit (c : ascii) : bool :=
  (Ascii.leb "0" c && Ascii.leb c "9")%char.

Definition clause (i : nat) : string :=
  BaseRepository.attrName i +:+ " = " +:+ BaseRepository.attrValue i.

Definition placeholders (i : nat) : string * string :=
  (BaseRepository.attrName i, BaseRepository.attrValue i).

Definition nonKey (kv : string * value) : Prop := kv.1 <> "id".

#[local] Instance nonKey_dec kv : Decision (nonKey kv).
Proof. unfold nonKey. apply _. Defined.

(** The entries the callback keeps, each with its index in the entries. *)
Fixpoint fields_from (entries : list (string * value)) (index : nat)
    : list (nat * (string * value)) :=
  match entries with
  | [] => []
  | (k, v) :: rest =>
      if decide (k = "id") then fields_from rest (S index)
      else (index, (k, v)) :: fields_from rest (S index)
  end.

(** Where the key [id] sits among the entries. *)
Definition keyMask (entries : list (string * value)) : list bool :=
  (fun kv => bool_decide (kv.1 = "id")) <$> entries.

(** Filling a table from the kept entries, one insertion per entry. *)
Definition fold_insert {V : Type} (key : nat -> string) (val : string * value -> V)
    (m : gmap string V) (F : list (nat * (string * value))) : gmap string V :=
  foldl (fun m f => <[key f.1 := val f.2]> m) m F.

(** The assignments an update payload amounts to: every field but [id],
    with its value as marshalled. *)
Definition assignments (updatesWithTimestamp : JsObject) : list (string * value) :=
  (fun kv => (kv.1, marshall kv.2)) <$> filter nonKey updatesWithTimestamp.





(** ** Sample data *)

Definition hammer : JsObject :=
  [("id", VStr "p1"); ("name", VStr "Hammer"); ("category", VStr "General");
   ("price", VNum 1999)].

(** A product whose description is the empty string. *)
Definition unnamed : JsObject := [("id", VStr "p2"); ("name", VStr "")].

Definition emptyWorld : World := mkWorld ∅ [].

Definition monday : Env :=
  mkEnv "2026-01-05T09:00:00.000Z" "2026-01-05T09:00:00.002Z" None.

Definition tuesday : Env :=
  mkEnv "2026-01-06T09:00:00.000Z" "2026-01-06T09:00:00.002Z" None.

Definition wednesday : Env :=
  mkEnv "2026-01-07T09:00:00.000Z" "2026-01-07T09:00:00.002Z" None.

Definition outage (e : Env) : Env :=
  mkEnv (now e) (logTime e)
    (Some (DynamoDB.mkClientError "TimeoutError" "socket hang up")).

(** The products table after [hammer] was created on Monday. *)
Definition oneHammer : World :=
  (BaseRepository.create false "fitit-products" "Product" hammer monday emptyWorld).2.

(** ** Calls and histories *)

(** A call of one of the public methods. *)
Inductive Call : Type :=
  | CallGetById (id : string)
  | CallGetByIdOrThrow (id : string)
  | CallGetAll (limit : option Z)
  | CallCreate (item : JsObject)
  | CallUpdate (id : string) (updates : JsObject)
  | CallDelete (id : string).

Definition thrownBy {A : Type} (o : Outcome A) : option Errors.AppError :=
  match o with
  | Thrown e => Some e
  | Returned _ => None
  end.

(** What a call throws, if anything, and the world it leaves. *)
Definition call (isDevelopment : bool) (tableName entityName : string)
    (c : Call) (e : Env) (w : World) : option Errors.AppError * World :=
  match c with
  | CallGetById id =>
      let r := BaseRepository.getById isDevelopment tableName entityName id e w in
      (thrownBy r.1, r.2)
  | CallGetByIdOrThrow id =>
      let r := BaseRepository.getByIdOrThrow isDevelopment tableName entityName id e w in
      (thrownBy r.1, r.2)
  | CallGetAll limit =>
      let r := BaseRepository.getAll isDevelopment tableName entityName limit e w in
      (thrownBy r.1, r.2)
  | CallCreate item =>
      let r := BaseRepository.create isDevelopment tableName entityName item e w in
      (thrownBy r.1, r.2)
  | CallUpdate id updates =>
      let r := BaseRepository.update isDevelopment tableName entityName id updates e w in
      (thrownBy r.1, r.2)
  | CallDelete id =>
      let r := BaseRepository.delete isDevelopment tableName entityName id e w in
      (thrownBy r.1, r.2)
  end.

(** Calls one after the other, each in its own environment. *)
Definition history (isDevelopment : bool) (tableName entityName : string)
    (calls : list (Call * Env)) (w : World) : World :=
  foldl (fun w ce => (call isDevelopment tableName entityName ce.1 ce.2 w).2) w calls.

(** Every record is found under the id it carries and has both timestamps. *)
Definition keyed (t : Table) : Prop :=
  forall key item, t !! key = Some item ->
    item !! "id" = Some (marshall (VStr key))
    /\ is_Some (item !! "createdAt")
    /\ is_Some (item !! "updatedAt").

(** No attribute of a record holds an empty string, at any depth. *)
Definition noEmptyStored (t : Table) : Prop :=
  forall key item k v, t !! key = Some item -> item !! k = Some v ->
    noEmptyString v = true.

(** The line [logger.info] writes. *)
Definition infoLine (e : Env) (message : string) (data : JsObject)
    : Logger.Stream * Logger.LogEntry :=
  (Logger.console_log,
   Logger.mkLogEntry (logTime e) Logger.INFO message None (Some data)).

(** A scan of the catalogue by a second product. *)
Definition wrench : JsObject :=
  [("id", VStr "p3"); ("name", VStr "Wrench"); ("category", VStr "General")].

(** ** pages/Dashboard.tsx: the local fallbacks *)

Module Dashboard.

(** [req.id === id] *)
Definition hasId (id : string) (req : JsObject) : bool :=
  match obj_get "id" req with
  | Some (VStr i) => bool_decide (i = id)
  | _ => false
  end.

(** [prev => prev.map(req => (req.id === id ? { ...req, status: 'IN_PROGRESS' } : req))] *)
Definition acceptJobLocally (id : string) (prev : list JsObject) : list JsObject :=
  (fun req => if hasId id req then obj_set "status" (VStr "IN_PROGRESS") req else req)
    <$> prev.

(** [newReq] of [postJob]: [id] is [Date.now().toString()], [date] is
    [new Date().toLocaleDateString()]. *)
Definition newReq (id date desc cat : string) : JsObject :=
  [("id", VStr id); ("customerId", VStr "current-user"); ("customerName", VStr "You");
   ("description", VStr desc); ("category", VStr cat); ("status", VStr "OPEN");
   ("date", VStr date)].

(** [prev => [newReq, ...prev]] *)
Definition postJobLocally (id date desc cat : string) (prev : list JsObject)
    : list JsObject :=
  newReq id date desc cat :: prev.

(** [r.status === 'OPEN'] *)
Definition isOpen (r : JsObject) : bool :=
  match obj_get "status" r with
  | Some (VStr s) => bool_decide (s = "OPEN")
  | _ => false
  end.

(** [localRequests.filter(r => r.status === 'OPEN')] *)
Definition openRequests (localRequests : list JsObject) : list JsObject :=
  List.filter isOpen localRequests.

(** [r.customerId === 'current-user' || r.customerId === 'You'] *)
Definition isMine (r : JsObject) : bool :=
  match obj_get "customerId" r with
  | Some (VStr c) => bool_decide (c = "current-user") || bool_decide (c = "You")
  | _ => false
  end.

Definition myRequests (localRequests : list JsObject) : list JsObject :=
  List.filter isMine localRequests.

End Dashboard.

(** * Properties *)

(** ** Strings *)

Lemma string_app_nil (b : string) : "" +:+ b = b.
Proof. reflexivity. Qed.

Lemma string_app_cons (x : ascii) (a b : string) :
  String x a +:+ b = String x (a +:+ b).
Proof. reflexivity. Qed.

Lemma string_app_assoc (a b c : string) : (a +:+ b) +:+ c = a +:+ (b +:+ c).
Proof.
  induction a as [|x a IH]; [reflexivity|].
  by rewrite !string_app_cons, IH.
Qed.

Lemma string_length_app (a b : string) :
  String.length (a +:+ b) = String.length a + String.length b.
Proof.
  induction a as [|x a IH]; [reflexivity|].
  rewrite string_app_cons. simpl. by rewrite IH.
Qed.

Lemma all_chars_app p (a b : string) :
  all_chars p (a +:+ b) = all_chars p a && all_chars p b.
Proof.
  induction a as [|x a IH]; [reflexivity|].
  rewrite string_app_cons. simpl. by rewrite IH, andb_assoc.
Qed.

Lemma span_app p (tok rest : string) :
  all_chars p tok = true -> stops p rest ->
  DynamoDB.span p (tok +:+ rest) = (tok, rest).
Proof.
  induction tok as [|c tok IH]; intros Htok Hrest.
  - rewrite string_app_nil. destruct rest as [|c r]; simpl in *; [reflexivity | by rewrite Hrest].
  - simpl in Htok. apply andb_prop in Htok as [Hc Htok].
    rewrite string_app_cons. simpl. by rewrite Hc, IH.
Qed.

Lemma strip_prefix_app (p s : string) : DynamoDB.strip_prefix p (p +:+ s) = Some s.
Proof.
  induction p as [|c p IH]; [by destruct s|].
  rewrite string_app_cons. simpl. by rewrite Ascii.eqb_refl.
Qed.

(** ** Decimal indexes *)

Lemma pretty_N_char_digit (x : N) : is_digit (pretty_N_char x) = true.
Proof. unfold pretty_N_char. by repeat case_match. Qed.

Lemma pretty_N_go_digits (x : N) (s : string) :
  all_chars is_digit s = true -> all_chars is_digit (pretty_N_go x s) = true.
Proof.
  revert s. induction (N.lt_wf_0 x) as [x _ IH]; intros s Hs.
  destruct (decide (x = 0)%N) as [->|Hx]; [by rewrite pretty_N_go_0|].
  rewrite pretty_N_go_step by lia. apply IH.
  - apply N.div_lt; lia.
  - simpl. by rewrite pretty_N_char_digit.
Qed.

Lemma pretty_nat_digits (n : nat) : all_chars is_digit (pretty n) = true.
Proof.
  unfold pretty, pretty_nat, pretty, pretty_N.
  case_decide; [reflexivity|]. by apply pretty_N_go_digits.
Qed.

Lemma digit_placeholder_char (c : ascii) :
  is_digit c = true -> DynamoDB.placeholder_char c = true.
Proof.
  destruct c as [[] [] [] [] [] [] [] []]; try reflexivity; discriminate.
Qed.

Lemma all_chars_impl (p q : ascii -> bool) (s : string) :
  (forall c, p c = true -> q c = true) -> all_chars p s = true -> all_chars q s = true.
Proof.
  intros Hpq. induction s as [|c s IH]; simpl; [done|].
  intros [Hc Hs]%andb_prop. by rewrite (Hpq _ Hc), IH.
Qed.

Lemma attrName_placeholder (i : nat) :
  all_chars DynamoDB.placeholder_char (BaseRepository.attrName i) = true.
Proof.
  unfold BaseRepository.attrName. rewrite all_chars_app. apply andb_true_intro. split.
  - reflexivity.
  - eapply all_chars_impl; [apply digit_placeholder_char | apply pretty_nat_digits].
Qed.

Lemma attrValue_placeholder (i : nat) :
  all_chars DynamoDB.placeholder_char (BaseRepository.attrValue i) = true.
Proof.
  unfold BaseRepository.attrValue. rewrite all_chars_app. apply andb_true_intro. split.
  - reflexivity.
  - eapply all_chars_impl; [apply digit_placeholder_char | apply pretty_nat_digits].
Qed.

Lemma attrName_inj (i j : nat) :
  BaseRepository.attrName i = BaseRepository.attrName j -> i = j.
Proof.
  unfold BaseRepository.attrName. intros H.
  apply (inj (String.append "#attr")) in H. by apply (inj pretty) in H.
Qed.

Lemma attrValue_inj (i j : nat) :
  BaseRepository.attrValue i = BaseRepository.attrValue j -> i = j.
Proof.
  unfold BaseRepository.attrValue. intros H.
  apply (inj (String.append ":val")) in H. by apply (inj pretty) in H.
Qed.

(** ** The update expression the builder writes is the one the store reads *)

Lemma string_app_nil_r (a : string) : a +:+ "" = a.
Proof.
  induction a as [|x a IH]; [reflexivity|]. by rewrite string_app_cons, IH.
Qed.

Lemma parse_clause_clause (i : nat) (rest : string) :
  stops DynamoDB.placeholder_char rest ->
  DynamoDB.parse_clause (clause i +:+ rest) = Some (placeholders i, rest).
Proof.
  intros Hrest. unfold DynamoDB.parse_clause, clause.
  rewrite !string_app_assoc.
  rewrite span_app; [|apply attrName_placeholder|reflexivity].
  rewrite strip_prefix_app. simpl.
  rewrite span_app; [|apply attrValue_placeholder|done].
  repeat (rewrite decide_False by done).
  reflexivity.
Qed.

Lemma clause_length (i : nat) : 1 <= String.length (clause i).
Proof.
  unfold clause, BaseRepository.attrName. rewrite !string_length_app. simpl. lia.
Qed.

Lemma join_cons2 (sep p q : string) (rest : list string) :
  BaseRepository.join sep (p :: q :: rest) = p +:+ sep +:+ BaseRepository.join sep (q :: rest).
Proof. reflexivity. Qed.

Lemma join_clauses_length (idxs : list nat) :
  length idxs <= String.length (BaseRepository.join ", " (clause <$> idxs)).
Proof.
  induction idxs as [|i [|j idxs] IH]; [simpl; lia| |].
  - pose proof (clause_length i). simpl. lia.
  - change (clause <$> i :: j :: idxs) with (clause i :: clause j :: (clause <$> idxs)).
    rewrite join_cons2, !string_length_app.
    change (clause j :: (clause <$> idxs)) with (clause <$> j :: idxs).
    pose proof (clause_length i). simpl in *. lia.
Qed.

Lemma parse_clauses_join (idxs : list nat) (fuel : nat) :
  idxs <> [] -> length idxs <= fuel ->
  DynamoDB.parse_clauses fuel (BaseRepository.join ", " (clause <$> idxs))
  = Some (placeholders <$> idxs).
Proof.
  revert fuel. induction idxs as [|i [|j idxs] IH]; intros fuel Hne Hfuel; [done| |].
  - destruct fuel as [|fuel]; [simpl in Hfuel; lia|].
    simpl. rewrite <- (string_app_nil_r (clause i)).
    rewrite parse_clause_clause by done. reflexivity.
  - destruct fuel as [|fuel]; [simpl in Hfuel; lia|].
    change (clause <$> i :: j :: idxs) with (clause i :: clause j :: (clause <$> idxs)).
    rewrite join_cons2.
    change (clause j :: (clause <$> idxs)) with (clause <$> j :: idxs).
    cbn [DynamoDB.parse_clauses].
    rewrite parse_clause_clause by reflexivity. simpl.
    rewrite IH; [reflexivity|done|simpl in *; lia].
Qed.

Lemma parse_update_expression_join (idxs : list nat) :
  idxs <> [] ->
  DynamoDB.parse_update_expression ("SET " +:+ BaseRepository.join ", " (clause <$> idxs))
  = Some (placeholders <$> idxs).
Proof.
  intros Hne. unfold DynamoDB.parse_update_expression.
  rewrite strip_prefix_app. simpl.
  apply parse_clauses_join; [done | apply join_clauses_length].
Qed.

(** ** What the builder produces *)

Lemma forEach_entries_fields entries index acc :
  BaseRepository.forEach_entries entries index acc =
  let F := fields_from entries index in
  BaseRepository.mkUpdateParts
    (BaseRepository.updateExpressionParts acc ++ (clause <$> F.*1))
    (foldl (fun m f => <[BaseRepository.attrName f.1 := f.2.1]> m)
       (BaseRepository.expressionAttributeNames acc) F)
    (foldl (fun m f => <[BaseRepository.attrValue f.1 := f.2.2]> m)
       (BaseRepository.expressionAttributeValues acc) F).
Proof.
  revert index acc. induction entries as [|[k v] rest IH]; intros index acc; simpl.
  - rewrite app_nil_r. by destruct acc.
  - rewrite IH. unfold BaseRepository.addPart.
    destruct (decide (k = "id")); simpl; [reflexivity|].
    by rewrite <- app_assoc.
Qed.

Lemma elem_of_fields_from entries index i kv :
  (i, kv) ∈ fields_from entries index <->
  index <= i /\ entries !! (i - index) = Some kv /\ nonKey kv.
Proof.
  revert index. induction entries as [|[k v] rest IH]; intros index; simpl.
  - rewrite elem_of_nil. split; [done|]. intros (_ & Hl & _). by rewrite lookup_nil in Hl.
  - assert (forall j, S index <= j -> (j - index) = S (j - S index)) as Hsub by lia.
    destruct (decide (k = "id")) as [Hk|Hk].
    + rewrite IH. split.
      * intros (Hle & Hl & Hn). rewrite (Hsub _ Hle). split; [lia|done].
      * intros (Hle & Hl & Hn).
        destruct (decide (i = index)) as [->|Hne].
        { rewrite Nat.sub_diag in Hl. simpl in Hl. injection Hl as <-.
          by destruct Hn. }
        rewrite (Hsub i) in Hl by lia. split; [lia|done].
    + rewrite elem_of_cons, IH. split.
      * intros [[= -> ->]|(Hle & Hl & Hn)].
        { rewrite Nat.sub_diag. done. }
        rewrite (Hsub _ Hle). split; [lia|done].
      * intros (Hle & Hl & Hn).
        destruct (decide (i = index)) as [->|Hne].
        { rewrite Nat.sub_diag in Hl. simpl in Hl. injection Hl as <-. by left. }
        right. rewrite (Hsub i) in Hl by lia. split; [lia|done].
Qed.

Lemma fields_from_NoDup entries index : NoDup (fields_from entries index).*1.
Proof.
  revert index. induction entries as [|[k v] rest IH]; intros index; simpl.
  - constructor.
  - destruct (decide (k = "id")); [apply IH|].
    simpl. constructor; [|apply IH].
    intros [[i kv] [Heq Hin]]%list_elem_of_fmap. simpl in Heq. subst i.
    apply elem_of_fields_from in Hin. lia.
Qed.

Lemma fields_from_snd entries index :
  (fields_from entries index).*2 = filter nonKey entries.
Proof.
  revert index. induction entries as [|[k v] rest IH]; intros index; simpl; [done|].
  unfold filter at 1. simpl. unfold nonKey at 1. simpl.
  destruct (decide (k = "id")) as [Hk|Hk].
  - rewrite decide_False by (intros H; by apply H). apply IH.
  - rewrite decide_True by done. simpl. f_equal. apply IH.
Qed.

Section FoldInsert.

Context {V : Type} (key : nat -> string) (val : string * value -> V).
Hypothesis key_inj : forall i j, key i = key j -> i = j.

Lemma fold_insert_other m F p :
  (forall f, f ∈ F -> key f.1 <> p) -> fold_insert key val m F !! p = m !! p.
Proof.
  revert m. induction F as [|f F IH]; intros m Hp; simpl; [done|].
  rewrite IH by (intros g Hg; apply Hp; by right).
  apply lookup_insert_ne, Hp. by left.
Qed.

Lemma fold_insert_elem m F i kv :
  NoDup F.*1 -> (i, kv) ∈ F -> fold_insert key val m F !! key i = Some (val kv).
Proof.
  revert m. induction F as [|f F IH]; intros m Hnd Hin; simpl.
  - by apply elem_of_nil in Hin.
  - simpl in Hnd. apply NoDup_cons in Hnd as [Hf Hnd].
    apply elem_of_cons in Hin as [<-|Hin]; [|by apply IH].
    simpl. rewrite fold_insert_other; [apply lookup_insert_eq|].
    intros g Hg Heq. apply key_inj in Heq. apply Hf. rewrite <- Heq.
    apply list_elem_of_fmap. by exists g.
Qed.

Lemma fold_insert_inv m F p y :
  fold_insert key val m F !! p = Some y ->
  m !! p = Some y \/ exists f, f ∈ F /\ p = key f.1 /\ y = val f.2.
Proof.
  revert m. induction F as [|f F IH]; intros m; simpl; [by left|].
  intros [Hm|(g & Hg & -> & ->)]%IH.
  - destruct (decide (key f.1 = p)) as [<-|Hne].
    + rewrite lookup_insert_eq in Hm. simplify_eq. right. exists f. split; [by left|done].
    + rewrite lookup_insert_ne in Hm by done. by left.
  - right. exists g. split; [by right|done].
Qed.

End FoldInsert.

Lemma fields_from_mask e1 e2 index :
  keyMask e1 = keyMask e2 -> (fields_from e1 index).*1 = (fields_from e2 index).*1.
Proof.
  revert e2 index. induction e1 as [|[k1 v1] e1 IH]; intros [|[k2 v2] e2] index Hm;
    try done.
  injection Hm as Hk Hm. simpl.
  destruct (decide (k1 = "id")) as [H1|H1], (decide (k2 = "id")) as [H2|H2].
  - by apply IH.
  - rewrite bool_decide_eq_true_2, bool_decide_eq_false_2 in Hk by done. done.
  - rewrite bool_decide_eq_false_2, bool_decide_eq_true_2 in Hk by done. done.
  - simpl. f_equal. by apply IH.
Qed.

Lemma buildUpdate_fields (o : JsObject) :
  BaseRepository.buildUpdate o =
  BaseRepository.mkUpdateParts
    (clause <$> (fields_from o 0).*1)
    (fold_insert BaseRepository.attrName fst ∅ (fields_from o 0))
    (fold_insert BaseRepository.attrValue snd ∅ (fields_from o 0)).
Proof.
  unfold BaseRepository.buildUpdate, Object_entries.
  by rewrite forEach_entries_fields.
Qed.

Lemma clause_inj (i j : nat) : clause i = clause j -> i = j.
Proof.
  intros H.
  assert (DynamoDB.parse_clause (clause i +:+ "") = DynamoDB.parse_clause (clause j +:+ ""))
    as Hp by (by rewrite H).
  rewrite !parse_clause_clause in Hp by done.
  assert (placeholders i = placeholders j) as Hpl by congruence.
  apply (f_equal fst) in Hpl. exact (attrName_inj _ _ Hpl).
Qed.

Lemma obj_get_obj_set k v o : obj_get k (obj_set k v o) = Some v.
Proof.
  induction o as [|[k' v'] o IH]; simpl.
  - by rewrite decide_True.
  - destruct (decide (k' = k)) as [->|Hne]; simpl.
    + by rewrite decide_True.
    + by rewrite decide_False.
Qed.

Lemma obj_get_obj_set_ne k k' v o : k <> k' -> obj_get k' (obj_set k v o) = obj_get k' o.
Proof.
  intros Hne. induction o as [|[k0 v0] o IH]; simpl.
  - by rewrite decide_False.
  - destruct (decide (k0 = k)) as [->|Hk]; simpl.
    + by rewrite !decide_False.
    + by rewrite IH.
Qed.

Lemma obj_get_Some_lookup k v (o : JsObject) :
  obj_get k o = Some v -> exists i, o !! i = Some (k, v).
Proof.
  induction o as [|[k' v'] o IH]; simpl; [done|].
  destruct (decide (k' = k)) as [->|Hne].
  - intros [= ->]. by exists 0.
  - intros [i Hi]%IH. by exists (S i).
Qed.

(** C6: the update-expression builder, on the payload with the injected
    [updatedAt], writes one clause [#attrN = :valN] for each entry whose key
    is not [id] and nothing else, N being the entry's index; distinct
    entries get distinct placeholders and clauses; the name table sends
    [#attrN] to the field name of entry N and the value table sends [:valN]
    to its value, and neither table holds anything else; the clauses are
    fixed by the positions of the entries alone, whatever the field names. *)
Theorem update_expression_builder (updates : JsObject) (now : string) :
  let entries := Object_entries (obj_set "updatedAt" (VStr now) updates) in
  let built := BaseRepository.buildUpdate (obj_set "updatedAt" (VStr now) updates) in
  let parts := BaseRepository.updateExpressionParts built in
  let names := BaseRepository.expressionAttributeNames built in
  let values := BaseRepository.expressionAttributeValues built in
  (exists i, entries !! i = Some ("updatedAt", VStr now))
  /\ (forall i k v, entries !! i = Some (k, v) -> k <> "id" ->
        BaseRepository.attrName i +:+ " = " +:+ BaseRepository.attrValue i ∈ parts
        /\ names !! BaseRepository.attrName i = Some k
        /\ values !! BaseRepository.attrValue i = Some v)
  /\ (forall part, part ∈ parts -> exists i k v,
        entries !! i = Some (k, v) /\ k <> "id"
        /\ part = BaseRepository.attrName i +:+ " = " +:+ BaseRepository.attrValue i)
  /\ NoDup parts
  /\ length parts = length (filter nonKey entries)
  /\ (forall i j, i <> j ->
        BaseRepository.attrName i <> BaseRepository.attrName j
        /\ BaseRepository.attrValue i <> BaseRepository.attrValue j)
  /\ (forall p k, names !! p = Some k -> exists i v,
        entries !! i = Some (k, v) /\ k <> "id" /\ p = BaseRepository.attrName i)
  /\ (forall p v, values !! p = Some v -> exists i k,
        entries !! i = Some (k, v) /\ k <> "id" /\ p = BaseRepository.attrValue i)
  /\ (forall other : JsObject, keyMask (Object_entries other) = keyMask entries ->
        BaseRepository.updateExpressionParts (BaseRepository.buildUpdate other) = parts).
Proof.
  intros entries built parts names values.
  subst parts names values built. rewrite buildUpdate_fields. simpl.
  fold entries. unfold Object_entries in entries.
  assert (forall i k v, entries !! i = Some (k, v) -> k <> "id" ->
            (i, (k, v)) ∈ fields_from entries 0) as Hin.
  { intros i k v Hi Hk. apply elem_of_fields_from.
    rewrite Nat.sub_0_r. split; [lia|]. split; [done|]. exact Hk. }
  assert (forall i kv, (i, kv) ∈ fields_from entries 0 ->
            entries !! i = Some kv /\ kv.1 <> "id") as Hout.
  { intros i kv (_ & Hi & Hk)%elem_of_fields_from.
    rewrite Nat.sub_0_r in Hi. done. }
  repeat split.
  - apply obj_get_Some_lookup, obj_get_obj_set.
  - apply list_elem_of_fmap. exists i. split; [reflexivity|].
    apply list_elem_of_fmap. exists (i, (k, v)). split; [reflexivity|]. by apply Hin.
  - apply (fold_insert_elem _ fst attrName_inj _ _ i (k, v));
      [apply fields_from_NoDup | by apply Hin].
  - apply (fold_insert_elem _ snd attrValue_inj _ _ i (k, v));
      [apply fields_from_NoDup | by apply Hin].
  - intros part (i & -> & ([j [k v]] & Hj & Hf)%list_elem_of_fmap)%list_elem_of_fmap.
    simpl in Hj. subst j. apply Hout in Hf as [Hi Hk]. by exists i, k, v.
  - apply NoDup_fmap_2; [|apply fields_from_NoDup].
    intros i j. apply clause_inj.
  - rewrite !length_fmap. rewrite <- (fields_from_snd entries 0). by rewrite length_fmap.
  - intros Heq. by apply attrName_inj in Heq.
  - intros Heq. by apply attrValue_inj in Heq.
  - intros p k [Hp|([i [k' v]] & Hf & -> & ->)]%fold_insert_inv; [done|].
    apply Hout in Hf as [Hi Hk]. by exists i, v.
  - intros p v [Hp|([i [k v']] & Hf & -> & ->)]%fold_insert_inv; [done|].
    apply Hout in Hf as [Hi Hk]. by exists i, k.
  - intros other Hmask. rewrite buildUpdate_fields. simpl.
    f_equal. by apply fields_from_mask.
Qed.

(** The payload [{ id: "other", name: "x" }] at a given time. *)
Lemma update_expression_builder_witness :
  let built := BaseRepository.buildUpdate
    (obj_set "updatedAt" (VStr "2026-01-02T00:00:00.000Z")
       [("id", VStr "other"); ("name", VStr "x")]) in
  BaseRepository.expressionAttributeNames built !! "#attr1" = Some "name"
  /\ BaseRepository.expressionAttributeValues built !! ":val1" = Some (VStr "x")
  /\ BaseRepository.expressionAttributeNames built !! "#attr2" = Some "updatedAt".
Proof.
  pose proof (update_expression_builder
    [("id", VStr "other"); ("name", VStr "x")] "2026-01-02T00:00:00.000Z")
    as (_ & H & _).
  intros built. split; [|split].
  - apply (H 1 "name" (VStr "x")); [reflexivity | discriminate].
  - apply (H 1 "name" (VStr "x")); [reflexivity | discriminate].
  - apply (H 2 "updatedAt" (VStr "2026-01-02T00:00:00.000Z")); [reflexivity | discriminate].
Defined.

(** ** Objects and stored items *)

Lemma lookup_obj_to_item (o : JsObject) (k : string) :
  obj_to_item o !! k = obj_get k o.
Proof.
  unfold obj_to_item. induction o as [|[k' v] o IH]; simpl; [done|].
  destruct (decide (k' = k)) as [->|Hne].
  - apply lookup_insert_eq.
  - by rewrite lookup_insert_ne.
Qed.

Lemma lookup_marshallItem (o : JsObject) (k : string) :
  marshallItem o !! k = marshall <$> obj_get k o.
Proof.
  unfold marshallItem. rewrite lookup_fmap.
  by rewrite <- lookup_obj_to_item.
Qed.

Lemma obj_set_keys_other k v (o : JsObject) k' :
  k' <> k -> k' ∈ keys (obj_set k v o) -> k' ∈ keys o.
Proof.
  intros Hne. unfold keys. induction o as [|[k0 v0] o IH]; simpl.
  - intros [->|[]%elem_of_nil]%elem_of_cons. done.
  - destruct (decide (k0 = k)) as [->|Hk]; simpl.
    + intros [->|Hin]%elem_of_cons; [done|]. by right.
    + intros [->|Hin]%elem_of_cons; [by left|]. right. by apply IH.
Qed.

Lemma obj_set_is_object k v (o : JsObject) : is_object o -> is_object (obj_set k v o).
Proof.
  unfold is_object, keys. induction o as [|[k0 v0] o IH]; simpl; intros Hnd.
  - apply NoDup_singleton.
  - apply NoDup_cons in Hnd as [Hk0 Hnd].
    destruct (decide (k0 = k)) as [->|Hk]; simpl.
    + by apply NoDup_cons.
    + apply NoDup_cons. split; [|by apply IH].
      intros Hin. apply Hk0. by apply (obj_set_keys_other k v).
Qed.


Lemma obj_get_elem k v (o : JsObject) : is_object o -> (k, v) ∈ o -> obj_get k o = Some v.
Proof.
  unfold is_object, keys. induction o as [|[k0 v0] o IH]; simpl; intros Hnd Hin.
  - by apply elem_of_nil in Hin.
  - apply NoDup_cons in Hnd as [Hk0 Hnd].
    apply elem_of_cons in Hin as [[= <- <-]|Hin].
    + by rewrite decide_True.
    + rewrite decide_False; [by apply IH|].
      intros ->. apply Hk0. apply list_elem_of_fmap. by exists (k, v).
Qed.


(** ** What a [SET] does to an item *)

Lemma apply_set_other (l : list (string * value)) (item : StoredItem) k :
  k ∉ l.*1 -> DynamoDB.apply_set l item !! k = item !! k.
Proof.
  unfold DynamoDB.apply_set. revert item.
  induction l as [|[k0 v0] l IH]; intros item Hk; simpl; [done|].
  simpl in Hk. apply not_elem_of_cons in Hk as [Hne Hk].
  rewrite IH by done. by rewrite lookup_insert_ne.
Qed.

Lemma apply_set_elem (l : list (string * value)) (item : StoredItem) k v :
  NoDup l.*1 -> (k, v) ∈ l -> DynamoDB.apply_set l item !! k = Some v.
Proof.
  unfold DynamoDB.apply_set. revert item.
  induction l as [|[k0 v0] l IH]; intros item Hnd Hin; simpl.
  - by apply elem_of_nil in Hin.
  - simpl in Hnd. apply NoDup_cons in Hnd as [Hk0 Hnd].
    apply elem_of_cons in Hin as [[= <- <-]|Hin]; [|by apply IH].
    pose proof (apply_set_other l (<[k:=v]> item) k Hk0) as Ho.
    unfold DynamoDB.apply_set in Ho. rewrite Ho. apply lookup_insert_eq.
Qed.

Lemma assignments_keys (o : JsObject) k :
  k ∈ (assignments o).*1 <-> k ∈ keys o /\ k <> "id".
Proof.
  unfold assignments, keys. rewrite <- list_fmap_compose.
  rewrite !list_elem_of_fmap. split.
  - intros ([k0 v0] & -> & [Hn Hin]%list_elem_of_filter). split; [|exact Hn].
    by exists (k0, v0).
  - intros [([k0 v0] & -> & Hin) Hne]. exists (k0, v0). split; [done|].
    apply list_elem_of_filter. by split.
Qed.

Lemma assignments_NoDup (o : JsObject) : is_object o -> NoDup (assignments o).*1.
Proof.
  unfold is_object, keys, assignments. rewrite <- list_fmap_compose.
  induction o as [|[k v] o IH]; simpl; intros Hnd; [constructor|].
  apply NoDup_cons in Hnd as [Hk Hnd].
  rewrite filter_cons. case_decide; [|by apply IH].
  simpl. apply NoDup_cons. split; [|by apply IH].
  intros ([k0 v0] & Heq & [_ Hin]%list_elem_of_filter)%list_elem_of_fmap.
  simpl in Heq. subst k0. apply Hk. apply list_elem_of_fmap. by exists (k, v0).
Qed.


(** ** What the store makes of the commands the repository sends *)

Lemma mapM_resolve (F : list (nat * (string * value)))
    (names : gmap string string) (values : gmap string value) :
  (forall f, f ∈ F ->
     names !! BaseRepository.attrName f.1 = Some f.2.1
     /\ values !! BaseRepository.attrValue f.1 = Some f.2.2
     /\ f.2.1 <> "id") ->
  mapM (DynamoDB.resolve_clause names (marshall <$> values)) (placeholders <$> F.*1)
  = Some ((fun kv => (kv.1, marshall kv.2)) <$> F.*2).
Proof.
  intros HF. apply mapM_Some_2.
  induction F as [|f F IH]; simpl; [constructor|].
  constructor.
  - destruct (HF f) as (Hn & Hv & Hk); [by left|].
    unfold DynamoDB.resolve_clause, placeholders. simpl.
    rewrite Hn. simpl. rewrite lookup_fmap, Hv. simpl.
    by rewrite decide_False.
  - apply IH. intros g Hg. apply HF. by right.
Qed.

Lemma fields_from_timestamp (updates : JsObject) (t : string) :
  fields_from (obj_set "updatedAt" (VStr t) updates) 0 <> [].
Proof.
  destruct (obj_get_Some_lookup "updatedAt" (VStr t) _ (obj_get_obj_set _ _ updates))
    as [i Hi].
  assert ((i, ("updatedAt", VStr t)) ∈ fields_from (obj_set "updatedAt" (VStr t) updates) 0)
    as Hin.
  { apply elem_of_fields_from. rewrite Nat.sub_0_r. split; [lia|]. split; [done|].
    unfold nonKey. simpl. discriminate. }
  intros Heq. rewrite Heq in Hin. by apply elem_of_nil in Hin.
Qed.

(** The guard [updateExpressionParts.length === 0] never holds: the
    timestamp is always among the entries. *)
Lemma update_parts_nonempty (updates : JsObject) (t : string) :
  length (BaseRepository.updateExpressionParts
            (BaseRepository.buildUpdate (obj_set "updatedAt" (VStr t) updates))) <> 0.
Proof.
  rewrite buildUpdate_fields. simpl. rewrite !length_fmap.
  pose proof (fields_from_timestamp updates t) as Hne.
  destruct (fields_from _ 0); [done | simpl; lia].
Qed.

Lemma send_built_update (tableName id : string) (uwt : JsObject) (t : Table) :
  fields_from uwt 0 <> [] ->
  let built := BaseRepository.buildUpdate uwt in
  DynamoDB.send
    (DynamoDB.UpdateCommand tableName id
       ("SET " +:+ BaseRepository.join ", " (BaseRepository.updateExpressionParts built))
       (BaseRepository.expressionAttributeNames built)
       (BaseRepository.expressionAttributeValues built)
       "attribute_exists(id)" "ALL_NEW") None t
  = match t !! id with
    | Some old =>
        (inr (DynamoDB.mkOutput None None (Some (DynamoDB.apply_set (assignments uwt) old))),
         <[id := DynamoDB.apply_set (assignments uwt) old]> t)
    | None => (inl DynamoDB.ConditionalCheckFailedException, t)
    end.
Proof.
  intros Hne built. subst built. rewrite buildUpdate_fields. simpl.
  rewrite parse_update_expression_join
    by (intros Heq; apply Hne; by destruct (fields_from uwt 0)).
  simpl. rewrite mapM_resolve.
  - rewrite fields_from_snd. fold (assignments uwt).
    destruct (t !! id) as [old|]; reflexivity.
  - intros [i [k v]] Hin. simpl.
    pose proof Hin as (_ & _ & Hk)%elem_of_fields_from.
    split; [|split; [|exact Hk]].
    + apply (fold_insert_elem _ fst attrName_inj _ _ i (k, v));
        [apply fields_from_NoDup | done].
    + apply (fold_insert_elem _ snd attrValue_inj _ _ i (k, v));
        [apply fields_from_NoDup | done].
Qed.

Section Runs.

Variable isDevelopment : bool.
Variables tableName entityName : string.

Local Abbreviation create := (BaseRepository.create isDevelopment tableName entityName).
Local Abbreviation update := (BaseRepository.update isDevelopment tableName entityName).
Local Abbreviation delete_ := (BaseRepository.delete isDevelopment tableName entityName).
Local Abbreviation getById := (BaseRepository.getById isDevelopment tableName entityName).
Local Abbreviation getByIdOrThrow :=
  (BaseRepository.getByIdOrThrow isDevelopment tableName entityName).
Local Abbreviation getAll := (BaseRepository.getAll isDevelopment tableName entityName).

Lemma update_run (id : string) (updates : JsObject) (e : Env) (w : World) :
  fault e = None ->
  update id updates e w =
  match table w !! id with
  | Some old =>
      let new := DynamoDB.apply_set
                   (assignments (obj_set "updatedAt" (VStr (now e)) updates)) old in
      (Returned (Some new),
       mkWorld (<[id := new]> (table w))
         (Logger.info isDevelopment ("Updated " +:+ entityName) [("id", VStr id)]
            (logTime e) (console w)))
  | None =>
      (Thrown (Errors.NotFoundError entityName (Some id)), mkWorld (table w) (console w))
  end.
Proof.
  intros Hf. unfold BaseRepository.update.
  rewrite decide_False by apply update_parts_nonempty.
  rewrite Hf, send_built_update by apply fields_from_timestamp.
  destruct (table w !! id) as [old|]; reflexivity.
Qed.

Lemma update_fault (id : string) (updates : JsObject) (e : Env) (w : World) err :
  fault e = Some err ->
  update id updates e w =
  if decide (DynamoDB.name err = "ConditionalCheckFailedException") then
    (Thrown (Errors.NotFoundError entityName (Some id)), mkWorld (table w) (console w))
  else
    (Thrown (Errors.DatabaseError ("Failed to update " +:+ entityName)),
     mkWorld (table w)
       (Logger.error isDevelopment ("Failed to update " +:+ entityName)
          (BaseRepository.failureData tableName (Some id) err) (logTime e) (console w))).
Proof.
  intros Hf. unfold BaseRepository.update.
  rewrite decide_False by apply update_parts_nonempty.
  rewrite Hf. reflexivity.
Qed.

Lemma create_run (item : JsObject) (id : string) (e : Env) (w : World) :
  obj_get "id" item = Some (VStr id) -> fault e = None ->
  create item e w =
  let itemWithTimestamps :=
    obj_set "updatedAt" (VStr (now e)) (obj_set "createdAt" (VStr (now e)) item) in
  match table w !! id with
  | None =>
      (Returned itemWithTimestamps,
       mkWorld (<[id := marshallItem itemWithTimestamps]> (table w))
         (Logger.info isDevelopment ("Created " +:+ entityName) [("id", VStr id)]
            (logTime e) (console w)))
  | Some _ =>
      (Thrown (Errors.DatabaseError (entityName +:+ " with this ID already exists")),
       mkWorld (table w) (console w))
  end.
Proof.
  intros Hid Hf. unfold BaseRepository.create, DynamoDB.send.
  rewrite Hf. rewrite !obj_get_obj_set_ne by done. rewrite Hid.
  unfold BaseRepository.idData. rewrite Hid.
  destruct (table w !! id); reflexivity.
Qed.


Lemma delete_run (id : string) (e : Env) (w : World) :
  fault e = None ->
  delete_ id e w =
  match table w !! id with
  | Some _ =>
      (Returned tt,
       mkWorld (delete id (table w))
         (Logger.info isDevelopment ("Deleted " +:+ entityName) [("id", VStr id)]
            (logTime e) (console w)))
  | None =>
      (Thrown (Errors.NotFoundError entityName (Some id)), mkWorld (table w) (console w))
  end.
Proof.
  intros Hf. unfold BaseRepository.delete, DynamoDB.send. rewrite Hf.
  destruct (table w !! id); reflexivity.
Qed.

Lemma delete_fault (id : string) (e : Env) (w : World) err :
  fault e = Some err -> table (delete_ id e w).2 = table w.
Proof.
  intros Hf. unfold BaseRepository.delete, DynamoDB.send. rewrite Hf.
  by destruct (decide _).
Qed.

Lemma getById_run (id : string) (e : Env) (w : World) :
  fault e = None ->
  getById id e w = (Returned (table w !! id), mkWorld (table w) (console w)).
Proof.
  intros Hf. unfold BaseRepository.getById, DynamoDB.send. by rewrite Hf.
Qed.

End Runs.

(** ** Creation *)

Lemma world_eta (w : World) : mkWorld (table w) (console w) = w.
Proof. by destruct w. Qed.







(** ** Mutating what is not there *)



(** ** Reading back *)







(** ** Updating *)

Lemma update_table_other (isDevelopment : bool) (tableName entityName : string)
    (id : string) (updates : JsObject) (e : Env) (w : World) (id' : string) :
  id' <> id ->
  table (BaseRepository.update isDevelopment tableName entityName id updates e w).2 !! id'
  = table w !! id'.
Proof.
  intros Hne. destruct (fault e) as [err|] eqn:Hf.
  - rewrite (update_fault _ _ _ _ _ _ _ err) by done. by destruct (decide _).
  - rewrite update_run by done. destruct (table w !! id) as [old|]; simpl; [|done].
    by rewrite lookup_insert_ne.
Qed.




(** C3 does not hold of the code: the payload [{}] (and [{ id: "ignored" }]
    likewise) reaches the store as [SET #attr0 = :val0] with the new
    timestamp (at index 1 when [id] comes first), so the stored [updatedAt]
    moves from Monday to Tuesday. *)
Theorem update_empty_payload_writes :
  let stored (w : World) := table w !! "p1" ≫= (.!! "updatedAt") in
  let after (updates : JsObject) :=
    (BaseRepository.update false "fitit-products" "Product" "p1" updates
       tuesday oneHammer).2 in
  stored oneHammer = Some (VStr "2026-01-05T09:00:00.000Z")
  /\ BaseRepository.updateExpressionParts
       (BaseRepository.buildUpdate (obj_set "updatedAt" (VStr (now tuesday)) []))
     = ["#attr0 = :val0"]
  /\ stored (after []) = Some (VStr "2026-01-06T09:00:00.000Z")
  /\ BaseRepository.updateExpressionParts
       (BaseRepository.buildUpdate
          (obj_set "updatedAt" (VStr (now tuesday)) [("id", VStr "ignored")]))
     = ["#attr1 = :val1"]
  /\ stored (after [("id", VStr "ignored")]) = Some (VStr "2026-01-06T09:00:00.000Z")
  /\ table (after []) <> table oneHammer.
Proof.
  intros stored after. repeat split; try (vm_compute; reflexivity).
  intros Heq. apply (f_equal (fun t => t !! "p1" ≫= (.!! "updatedAt"))) in Heq.
  vm_compute in Heq. discriminate.
Qed.

(** ** Timestamps *)







(** ** Failures and the log *)





(** ** Listing *)






(** * Further properties of the repository *)

(** ** How each mutation can end *)

Section Cases.

Variable isDevelopment : bool.
Variables tableName entityName : string.

Lemma create_cases (item : JsObject) (e : Env) (w : World) :
  let r := BaseRepository.create isDevelopment tableName entityName item e w in
  let stored :=
    obj_set "updatedAt" (VStr (now e)) (obj_set "createdAt" (VStr (now e)) item) in
  (exists msg, r.1 = Thrown (Errors.DatabaseError msg) /\ table r.2 = table w)
  \/ (exists key,
        obj_get "id" item = Some (VStr key)
        /\ table w !! key = None
        /\ fault e = None
        /\ r = (Returned stored,
                mkWorld (<[key := marshallItem stored]> (table w))
                  (Logger.info isDevelopment ("Created " +:+ entityName)
                     [("id", VStr key)] (logTime e) (console w)))).
Proof.
  intros r stored. subst r stored.
  destruct (fault e) as [err|] eqn:Hf.
  - left. unfold BaseRepository.create, DynamoDB.send. rewrite Hf.
    destruct (decide _); simpl; eauto.
  - destruct (obj_get "id" item) as [v|] eqn:Hid.
    + destruct v as [ | b | n | key | items | props ];
        try solve [left; unfold BaseRepository.create, DynamoDB.send;
                   rewrite Hf, !obj_get_obj_set_ne, Hid by done; simpl; eauto].
      rewrite (create_run _ _ _ _ key) by done. simpl.
      destruct (table w !! key) as [old|] eqn:Hk; [left; simpl; eauto|].
      right. exists key. done.
    + left. unfold BaseRepository.create, DynamoDB.send.
      rewrite Hf, !obj_get_obj_set_ne, Hid by done. simpl. eauto.
Qed.

Lemma update_cases (id : string) (updates : JsObject) (e : Env) (w : World) :
  let r := BaseRepository.update isDevelopment tableName entityName id updates e w in
  (exists err, r.1 = Thrown err /\ table r.2 = table w
     /\ ((exists msg, err = Errors.DatabaseError msg)
         \/ err = Errors.NotFoundError entityName (Some id)))
  \/ (exists old,
        table w !! id = Some old
        /\ fault e = None
        /\ r = (Returned (Some (DynamoDB.apply_set
                  (assignments (obj_set "updatedAt" (VStr (now e)) updates)) old)),
                mkWorld
                  (<[id := DynamoDB.apply_set
                      (assignments (obj_set "updatedAt" (VStr (now e)) updates)) old]>
                     (table w))
                  (Logger.info isDevelopment ("Updated " +:+ entityName)
                     [("id", VStr id)] (logTime e) (console w)))).
Proof.
  intros r. subst r. destruct (fault e) as [err|] eqn:Hf.
  - left. rewrite (update_fault _ _ _ _ _ _ _ err) by done.
    destruct (decide _); simpl; eauto 6.
  - rewrite update_run by done.
    destruct (table w !! id) as [old|] eqn:Hold; [right; by exists old|].
    left. simpl. eauto 6.
Qed.

Lemma delete_cases (id : string) (e : Env) (w : World) :
  let r := BaseRepository.delete isDevelopment tableName entityName id e w in
  (exists err, r.1 = Thrown err /\ table r.2 = table w
     /\ ((exists msg, err = Errors.DatabaseError msg)
         \/ err = Errors.NotFoundError entityName (Some id)))
  \/ (exists old,
        table w !! id = Some old
        /\ fault e = None
        /\ r = (Returned tt,
                mkWorld (delete id (table w))
                  (Logger.info isDevelopment ("Deleted " +:+ entityName)
                     [("id", VStr id)] (logTime e) (console w)))).
Proof.
  intros r. subst r. destruct (fault e) as [err|] eqn:Hf.
  - left. unfold BaseRepository.delete, DynamoDB.send. rewrite Hf.
    destruct (decide _); simpl; eauto 6.
  - rewrite delete_run by done.
    destruct (table w !! id) as [old|] eqn:Hold; [right; by exists old|].
    left. simpl. eauto 6.
Qed.

Lemma getById_cases (id : string) (e : Env) (w : World) :
  let r := BaseRepository.getById isDevelopment tableName entityName id e w in
  table r.2 = table w
  /\ ((exists cause, fault e = Some cause
         /\ r.1 = Thrown (Errors.DatabaseError ("Failed to retrieve " +:+ entityName)))
      \/ (fault e = None /\ r = (Returned (table w !! id), w))).
Proof.
  intros r. subst r. unfold BaseRepository.getById, DynamoDB.send.
  destruct (fault e) as [err|]; simpl; [eauto|].
  split; [done|]. right. by rewrite world_eta.
Qed.

Lemma getAll_table (limit : option Z) (e : Env) (w : World) :
  let r := BaseRepository.getAll isDevelopment tableName entityName limit e w in
  table r.2 = table w
  /\ (forall err, r.1 = Thrown err ->
        err = Errors.DatabaseError ("Failed to retrieve " +:+ entityName +:+ " list"))
  /\ (forall items, r.1 = Returned items -> console r.2 = console w).
Proof.
  intros r. subst r. unfold BaseRepository.getAll, DynamoDB.send.
  destruct (fault e) as [err|]; simpl.
  { split; [done|]. split; [by intros ? [= <-] | done]. }
  destruct (BaseRepository.scanLimit limit) as [n|]; simpl.
  - destruct (1 <=? n)%Z; simpl; (split; [done|]); (split; [by intros ? [= <-] | done]).
  - split; [done|]. split; done.
Qed.

End Cases.

(** ** Failures *)

Lemma getByIdOrThrow_cases (isDevelopment : bool) (tableName entityName : string)
    (id : string) (e : Env) (w : World) :
  let r := BaseRepository.getByIdOrThrow isDevelopment tableName entityName id e w in
  table r.2 = table w
  /\ ((exists cause, fault e = Some cause
         /\ r.1 = Thrown (Errors.DatabaseError ("Failed to retrieve " +:+ entityName)))
      \/ (fault e = None /\ table w !! id = None
          /\ r = (Thrown (Errors.NotFoundError entityName (Some id)), w))
      \/ (exists item, fault e = None /\ table w !! id = Some item
          /\ r = (Returned item, w))).
Proof.
  intros r. subst r. unfold BaseRepository.getByIdOrThrow.
  destruct (getById_cases isDevelopment tableName entityName id e w)
    as [Ht [(cause & Hf & Hr)|[Hf Hr]]].
  - destruct (BaseRepository.getById _ _ _ id e w) as [[o|err] w'] eqn:Hrun;
      simpl in *; [done|].
    split; [done|]. left. exists cause. split; [done|]. by simplify_eq.
  - rewrite Hr. destruct (table w !! id) as [item|] eqn:Hid; simpl.
    + split; [done|]. right. right. by exists item.
    + split; [done|]. right. left. done.
Qed.



(** X2: what the repository throws is a DatabaseError or, from
    [getByIdOrThrow], [update] and [delete] only, the NotFoundError for the
    entity name and the id of the call; [getById], [getAll] and [create]
    never throw a NotFoundError. *)
Theorem call_throws_typed (isDevelopment : bool) (tableName entityName : string)
    (c : Call) (e : Env) (w : World) (err : Errors.AppError) :
  (call isDevelopment tableName entityName c e w).1 = Some err ->
  match c with
  | CallGetById _ | CallGetAll _ | CallCreate _ =>
      exists msg, err = Errors.DatabaseError msg
  | CallGetByIdOrThrow id | CallUpdate id _ | CallDelete id =>
      (exists msg, err = Errors.DatabaseError msg)
      \/ err = Errors.NotFoundError entityName (Some id)
  end.
Proof.
  destruct c as [id|id|limit|item|id updates|id]; simpl; intros Hthrown.
  - destruct (getById_cases isDevelopment tableName entityName id e w)
      as [_ [(cause & _ & Hr)|[_ Hr]]]; rewrite Hr in Hthrown; simplify_eq/=; eauto.
  - destruct (getByIdOrThrow_cases isDevelopment tableName entityName id e w)
      as [_ [(cause & _ & Hr)|[(_ & _ & Hr)|(item & _ & _ & Hr)]]];
      rewrite Hr in Hthrown; simplify_eq/=; eauto.
  - destruct (BaseRepository.getAll _ _ _ limit e w) as [[items|err'] w'] eqn:Hrun;
      simpl in Hthrown; [done|]. simplify_eq.
    pose proof (getAll_table isDevelopment tableName entityName limit e w) as (_ & H & _).
    rewrite Hrun in H. rewrite (H err eq_refl). eauto.
  - destruct (create_cases isDevelopment tableName entityName item e w)
      as [(msg & Hr & _)|(key & _ & _ & _ & Hr)]; rewrite Hr in Hthrown;
      simplify_eq/=; eauto.
  - destruct (update_cases isDevelopment tableName entityName id updates e w)
      as [(err' & Hr & _ & Hkind)|(old & _ & _ & Hr)]; rewrite Hr in Hthrown;
      simplify_eq/=; done.
  - destruct (delete_cases isDevelopment tableName entityName id e w)
      as [(err' & Hr & _ & Hkind)|(old & _ & _ & Hr)]; rewrite Hr in Hthrown;
      simplify_eq/=; done.
Qed.

(** A product nobody created is deleted. *)
Lemma call_throws_typed_witness :
  (exists msg, Errors.NotFoundError "Product" (Some "p9") = Errors.DatabaseError msg)
  \/ Errors.NotFoundError "Product" (Some "p9") = Errors.NotFoundError "Product" (Some "p9").
Proof.
  apply (call_throws_typed false "fitit-products" "Product" (CallDelete "p9")
           tuesday oneHammer (Errors.NotFoundError "Product" (Some "p9"))).
  reflexivity.
Defined.



(** ** Reading *)

(** X4: the three reading methods never change the table, and a read that
    returns has written nothing on the console either. *)
Theorem reads_never_write (isDevelopment : bool) (tableName entityName : string)
    (id : string) (limit : option Z) (e : Env) (w : World) :
  let g := BaseRepository.getById isDevelopment tableName entityName id e w in
  let t := BaseRepository.getByIdOrThrow isDevelopment tableName entityName id e w in
  let a := BaseRepository.getAll isDevelopment tableName entityName limit e w in
  table g.2 = table w /\ table t.2 = table w /\ table a.2 = table w
  /\ (forall found, g.1 = Returned found -> g.2 = w)
  /\ (forall item, t.1 = Returned item -> t.2 = w)
  /\ (forall items, a.1 = Returned items -> a.2 = w).
Proof.
  intros g t a. subst g t a.
  destruct (getById_cases isDevelopment tableName entityName id e w) as [Hg Hg'].
  destruct (getByIdOrThrow_cases isDevelopment tableName entityName id e w) as [Ht Ht'].
  destruct (getAll_table isDevelopment tableName entityName limit e w) as (Ha & _ & Ha').
  repeat split; try done.
  - intros found Hr. destruct Hg' as [(cause & _ & Hc)|[_ Hc]]; rewrite Hc in *; done.
  - intros item Hr.
    destruct Ht' as [(cause & _ & Hc)|[(_ & _ & Hc)|(item' & _ & _ & Hc)]];
      rewrite Hc in *; done.
  - intros items Hr. specialize (Ha' items Hr).
    destruct (BaseRepository.getAll _ _ _ limit e w) as [o [t c]]. simpl in *.
    destruct w as [t' c']. simpl in *. by subst.
Qed.

Lemma reads_never_write_witness :
  (BaseRepository.getByIdOrThrow false "fitit-products" "Product" "p1" tuesday oneHammer).2
  = oneHammer.
Proof.
  destruct (reads_never_write false "fitit-products" "Product" "p1" None tuesday oneHammer)
    as (_ & _ & _ & _ & H & _).
  apply (H (marshallItem
              (obj_set "updatedAt" (VStr (now monday))
                 (obj_set "createdAt" (VStr (now monday)) hammer)))).
  reflexivity.
Defined.



(** ** Deleting *)

(** X6: [delete] of a stored id, when the store does not fail, removes that
    record and no other; after it [getById] returns the absent sentinel and
    a second [delete] throws the NotFoundError. *)
Theorem delete_removes (isDevelopment : bool) (tableName entityName : string)
    (id : string) (e e' : Env) (w : World) (old : StoredItem) :
  table w !! id = Some old ->
  fault e = None ->
  fault e' = None ->
  let r := BaseRepository.delete isDevelopment tableName entityName id e w in
  r.1 = Returned tt
  /\ table r.2 !! id = None
  /\ (forall id', id' <> id -> table r.2 !! id' = table w !! id')
  /\ S (size (table r.2)) = size (table w)
  /\ (BaseRepository.getById isDevelopment tableName entityName id e' r.2).1
     = Returned None
  /\ BaseRepository.delete isDevelopment tableName entityName id e' r.2
     = (Thrown (Errors.NotFoundError entityName (Some id)), r.2).
Proof.
  intros Hold Hf Hf' r. subst r. rewrite delete_run by done. rewrite Hold. simpl.
  split; [done|]. split; [apply lookup_delete_eq|].
  split; [intros id' Hne; by apply lookup_delete_ne|].
  split.
  { rewrite <- (map_size_insert_None id old) by apply lookup_delete_eq.
    by rewrite insert_delete_eq, insert_id. }
  split.
  - rewrite getById_run by done. simpl. by rewrite lookup_delete_eq.
  - rewrite delete_run by done. simpl. by rewrite lookup_delete_eq.
Qed.

Lemma delete_removes_witness :
  let r := BaseRepository.delete false "fitit-products" "Product" "p1" tuesday oneHammer in
  r.1 = Returned tt /\ table r.2 !! "p1" = None.
Proof.
  intros r.
  destruct (delete_removes false "fitit-products" "Product" "p1" tuesday wednesday
              oneHammer
              (marshallItem
                 (obj_set "updatedAt" (VStr (now monday))
                    (obj_set "createdAt" (VStr (now monday)) hammer))))
    as (H1 & H2 & _); [reflexivity | reflexivity | reflexivity |].
  split; [exact H1 | exact H2].
Defined.



(** ** One record at a time *)

(** X8: a call changes no record but the one it is about: the record of
    the item's id for [create], of the id given for [update] and [delete];
    the reading methods change none. *)
Theorem call_touches_own_record (isDevelopment : bool) (tableName entityName : string)
    (c : Call) (e : Env) (w : World) (other : string) :
  match c with
  | CallCreate item => obj_get "id" item <> Some (VStr other)
  | CallUpdate id _ | CallDelete id => id <> other
  | _ => True
  end ->
  table (call isDevelopment tableName entityName c e w).2 !! other = table w !! other.
Proof.
  destruct c as [id|id|limit|item|id updates|id]; simpl; intros Hother.
  - f_equal. apply getById_cases.
  - f_equal. apply getByIdOrThrow_cases.
  - f_equal. apply getAll_table.
  - destruct (create_cases isDevelopment tableName entityName item e w)
      as [(msg & _ & Ht)|(key & Hkey & _ & _ & Hr)]; [by rewrite Ht|].
    rewrite Hr. simpl. apply lookup_insert_ne. intros ->. done.
  - by apply update_table_other.
  - destruct (delete_cases isDevelopment tableName entityName id e w)
      as [(err' & _ & Ht & _)|(old & _ & _ & Hr)]; [by rewrite Ht|].
    rewrite Hr. simpl. by apply lookup_delete_ne.
Qed.

Lemma call_touches_own_record_witness :
  table (call false "fitit-products" "Product" (CallCreate wrench) tuesday oneHammer).2
    !! "p1"
  = table oneHammer !! "p1".
Proof.
  apply (call_touches_own_record false "fitit-products" "Product" (CallCreate wrench)
           tuesday oneHammer "p1").
  discriminate.
Defined.

(** ** What every history keeps *)

Lemma call_table_step (isDevelopment : bool) (tableName entityName : string)
    (c : Call) (e : Env) (w : World) :
  let t' := table (call isDevelopment tableName entityName c e w).2 in
  t' = table w
  \/ (exists item key,
        obj_get "id" item = Some (VStr key)
        /\ t' = <[key := marshallItem
                   (obj_set "updatedAt" (VStr (now e))
                      (obj_set "createdAt" (VStr (now e)) item))]> (table w))
  \/ (exists id updates old,
        table w !! id = Some old
        /\ t' = <[id := DynamoDB.apply_set
                   (assignments (obj_set "updatedAt" (VStr (now e)) updates)) old]>
                  (table w))
  \/ (exists id, t' = delete id (table w)).
Proof.
  intros t'. subst t'.
  destruct c as [id|id|limit|item|id updates|id]; simpl.
  - left. apply getById_cases.
  - left. apply getByIdOrThrow_cases.
  - left. apply getAll_table.
  - destruct (create_cases isDevelopment tableName entityName item e w)
      as [(msg & _ & Ht)|(key & Hkey & _ & _ & Hr)]; [by left|].
    right. left. exists item, key. by rewrite Hr.
  - destruct (update_cases isDevelopment tableName entityName id updates e w)
      as [(err' & _ & Ht & _)|(old & Hold & _ & Hr)]; [by left|].
    right. right. left. exists id, updates, old. by rewrite Hr.
  - destruct (delete_cases isDevelopment tableName entityName id e w)
      as [(err' & _ & Ht & _)|(old & _ & _ & Hr)]; [by left|].
    right. right. right. exists id. by rewrite Hr.
Qed.

Lemma apply_set_is_Some (l : list (string * value)) (item : StoredItem) k :
  is_Some (item !! k) -> is_Some (DynamoDB.apply_set l item !! k).
Proof.
  unfold DynamoDB.apply_set. revert item.
  induction l as [|[k0 v0] l IH]; intros item Hk; simpl; [done|].
  apply IH. destruct (decide (k0 = k)) as [->|Hne].
  - rewrite lookup_insert_eq. eauto.
  - by rewrite lookup_insert_ne.
Qed.

Lemma apply_set_inv (l : list (string * value)) (item : StoredItem) k v :
  DynamoDB.apply_set l item !! k = Some v -> (k, v) ∈ l \/ item !! k = Some v.
Proof.
  unfold DynamoDB.apply_set. revert item.
  induction l as [|[k0 v0] l IH]; intros item; simpl; [by right|].
  intros [Hin|Hk]%IH; [left; by right|].
  destruct (decide (k0 = k)) as [->|Hne].
  - rewrite lookup_insert_eq in Hk. injection Hk as ->. left. by left.
  - rewrite lookup_insert_ne in Hk by done. by right.
Qed.

Lemma noEmptyString_marshall (v : value) : noEmptyString (marshall v) = true.
Proof.
  revert v. fix IH 1. intros [ | b | n | s | items | props ]; simpl; try reflexivity.
  - destruct (decide (s = "")) as [->|Hs]; simpl; [reflexivity|].
    destruct (String.eqb_spec s ""); done.
  - induction items as [|x xs IHxs]; simpl; [reflexivity|].
    by rewrite IH, IHxs.
  - induction props as [|[k x] xs IHxs]; simpl; [reflexivity|].
    by rewrite IH, IHxs.
Qed.

Lemma call_keeps_keyed (isDevelopment : bool) (tableName entityName : string)
    (c : Call) (e : Env) (w : World) :
  keyed (table w) -> keyed (table (call isDevelopment tableName entityName c e w).2).
Proof.
  intros Hw.
  destruct (call_table_step isDevelopment tableName entityName c e w)
    as [->|[(item & key & Hkey & ->)|[(id & updates & old & Hold & ->)|(id & ->)]]];
    [done|..]; intros k rec Hk.
  - destruct (decide (key = k)) as [<-|Hne];
      [|rewrite lookup_insert_ne in Hk by done; by apply Hw].
    rewrite lookup_insert_eq in Hk. injection Hk as <-.
    rewrite !lookup_marshallItem, obj_get_obj_set.
    rewrite !(obj_get_obj_set_ne "updatedAt") by done.
    rewrite obj_get_obj_set, obj_get_obj_set_ne, Hkey by done. simpl. eauto.
  - destruct (decide (id = k)) as [<-|Hne];
      [|rewrite lookup_insert_ne in Hk by done; by apply Hw].
    rewrite lookup_insert_eq in Hk. injection Hk as <-.
    destruct (Hw id old Hold) as (Hid & Hc & Hu).
    split; [|split; by apply apply_set_is_Some].
    rewrite apply_set_other; [done|]. rewrite assignments_keys. by intros [_ ?].
  - apply lookup_delete_Some in Hk as [_ Hk]. by apply Hw.
Qed.

Lemma call_keeps_noEmptyStored (isDevelopment : bool) (tableName entityName : string)
    (c : Call) (e : Env) (w : World) :
  noEmptyStored (table w) ->
  noEmptyStored (table (call isDevelopment tableName entityName c e w).2).
Proof.
  intros Hw.
  destruct (call_table_step isDevelopment tableName entityName c e w)
    as [->|[(item & key & Hkey & ->)|[(id & updates & old & Hold & ->)|(id & ->)]]];
    [done|..]; intros k rec a v Hk Ha.
  - destruct (decide (key = k)) as [<-|Hne];
      [|rewrite lookup_insert_ne in Hk by done; by apply (Hw k rec a)].
    rewrite lookup_insert_eq in Hk. injection Hk as <-.
    rewrite lookup_marshallItem in Ha.
    destruct (obj_get a _) as [v0|]; [|done]. injection Ha as <-.
    apply noEmptyString_marshall.
  - destruct (decide (id = k)) as [<-|Hne];
      [|rewrite lookup_insert_ne in Hk by done; by apply (Hw k rec a)].
    rewrite lookup_insert_eq in Hk. injection Hk as <-.
    apply apply_set_inv in Ha as [Hin|Ha]; [|by apply (Hw id old a)].
    unfold assignments in Hin. apply list_elem_of_fmap in Hin as ([k0 v0] & Heq & _).
    injection Heq as _ ->. apply noEmptyString_marshall.
  - apply lookup_delete_Some in Hk as [_ Hk]. by apply (Hw k rec a).
Qed.

(** X9: over any sequence of calls, with any payloads and any failures of
    the store, every record stays under the id it carries and keeps a
    [createdAt] and an [updatedAt]. *)
Theorem history_keeps_keyed (isDevelopment : bool) (tableName entityName : string)
    (calls : list (Call * Env)) (w : World) :
  keyed (table w) ->
  keyed (table (history isDevelopment tableName entityName calls w)).
Proof.
  revert w. induction calls as [|[c e] calls IH]; intros w Hw; simpl; [done|].
  apply IH. by apply call_keeps_keyed.
Qed.

(** From the empty table: two creations, an update that names [id] and
    [createdAt], a failed update, a deletion. *)
Lemma history_keeps_keyed_witness :
  keyed (table (history false "fitit-products" "Product"
    [(CallCreate hammer, monday); (CallCreate unnamed, tuesday);
     (CallUpdate "p1" [("id", VStr "p2"); ("createdAt", VNull)], tuesday);
     (CallUpdate "p2" [("name", VStr "Pliers")], outage wednesday);
     (CallDelete "p2", wednesday)] emptyWorld)).
Proof.
  apply history_keeps_keyed. intros key item Hk.
  change ((∅ : Table) !! key = Some item) in Hk. by rewrite lookup_empty in Hk.
Defined.

(** X10: over any sequence of calls no stored attribute comes to hold an
    empty string, at any depth: the document client has turned each into
    null on the way in. *)
Theorem history_keeps_noEmptyStored (isDevelopment : bool)
    (tableName entityName : string) (calls : list (Call * Env)) (w : World) :
  noEmptyStored (table w) ->
  noEmptyStored (table (history isDevelopment tableName entityName calls w)).
Proof.
  revert w. induction calls as [|[c e] calls IH]; intros w Hw; simpl; [done|].
  apply IH. by apply call_keeps_noEmptyStored.
Qed.

Lemma history_keeps_noEmptyStored_witness :
  noEmptyStored (table (history false "fitit-products" "Product"
    [(CallCreate unnamed, monday);
     (CallUpdate "p2" [("tags", VList [VStr ""; VStr "steel"])], tuesday)] emptyWorld)).
Proof.
  apply history_keeps_noEmptyStored. intros key item k v Hk.
  change ((∅ : Table) !! key = Some item) in Hk. by rewrite lookup_empty in Hk.
Defined.

(** ** The console of a call that succeeds *)

Lemma logger_info_emits (isDevelopment : bool) (message : string) (data : JsObject)
    (e : Env) (out : Logger.Console) :
  Logger.info isDevelopment message data (logTime e) out
  = (out ++ [infoLine e message data])%list.
Proof. by destruct isDevelopment. Qed.

(** X11: a call that does not throw has written, in development and in
    production alike, exactly one INFO line when it is a [create], an
    [update] or a [delete] (the verb and the entity name, with the id as
    data) and nothing when it is a read. *)
Theorem success_logs_one_line (isDevelopment : bool) (tableName entityName : string)
    (c : Call) (e : Env) (w : World) :
  (call isDevelopment tableName entityName c e w).1 = None ->
  console (call isDevelopment tableName entityName c e w).2 =
  match c with
  | CallGetById _ | CallGetByIdOrThrow _ | CallGetAll _ => console w
  | CallCreate item =>
      (console w ++
       [infoLine e ("Created " +:+ entityName) (BaseRepository.idData item)])%list
  | CallUpdate id _ =>
      (console w ++ [infoLine e ("Updated " +:+ entityName) [("id", VStr id)]])%list
  | CallDelete id =>
      (console w ++ [infoLine e ("Deleted " +:+ entityName) [("id", VStr id)]])%list
  end.
Proof.
  destruct c as [id|id|limit|item|id updates|id]; simpl; intros Hok.
  - destruct (getById_cases isDevelopment tableName entityName id e w)
      as [_ [(cause & _ & Hr)|[_ Hr]]]; rewrite Hr in *; done.
  - destruct (getByIdOrThrow_cases isDevelopment tableName entityName id e w)
      as [_ [(cause & _ & Hr)|[(_ & _ & Hr)|(item & _ & _ & Hr)]]];
      rewrite Hr in *; done.
  - destruct (BaseRepository.getAll _ _ _ limit e w) as [[items|err] w'] eqn:Hrun;
      [|done].
    pose proof (getAll_table isDevelopment tableName entityName limit e w) as (_ & _ & H).
    rewrite Hrun in H. by apply (H items).
  - destruct (create_cases isDevelopment tableName entityName item e w)
      as [(msg & Hr & _)|(key & Hkey & _ & _ & Hr)]; rewrite Hr in *; [done|].
    simpl. unfold BaseRepository.idData. rewrite Hkey. apply logger_info_emits.
  - destruct (update_cases isDevelopment tableName entityName id updates e w)
      as [(err' & Hr & _)|(old & _ & _ & Hr)]; rewrite Hr in *; [done|].
    simpl. apply logger_info_emits.
  - destruct (delete_cases isDevelopment tableName entityName id e w)
      as [(err' & Hr & _)|(old & _ & _ & Hr)]; rewrite Hr in *; [done|].
    simpl. apply logger_info_emits.
Qed.

Lemma success_logs_one_line_witness :
  console (call true "fitit-products" "Product" (CallDelete "p1") tuesday oneHammer).2
  = (console oneHammer ++ [infoLine tuesday "Deleted Product" [("id", VStr "p1")]])%list.
Proof.
  apply (success_logs_one_line true "fitit-products" "Product" (CallDelete "p1")
           tuesday oneHammer).
  reflexivity.
Defined.

(** ** More on updating *)






Lemma apply_set_idem (l : list (string * value)) (item : StoredItem) :
  NoDup l.*1 -> DynamoDB.apply_set l (DynamoDB.apply_set l item) = DynamoDB.apply_set l item.
Proof.
  intros Hnd. apply map_eq. intros k.
  destruct (decide (k ∈ l.*1)) as [Hin|Hout].
  - apply list_elem_of_fmap in Hin as ([k0 v] & -> & Hin). simpl.
    by rewrite !(apply_set_elem l _ k0 v).
  - by rewrite !apply_set_other.
Qed.

(** X14: an update that went through can be sent again: the same payload
    with the same reading of the clock leaves the table as the first call
    left it, whether the second call reaches the store or not. *)
Theorem update_retry_harmless (isDevelopment : bool) (tableName entityName : string)
    (id : string) (updates : JsObject) (e e' : Env) (w : World) :
  is_object updates ->
  fault e = None ->
  now e' = now e ->
  let w1 := (BaseRepository.update isDevelopment tableName entityName id updates e w).2 in
  table (BaseRepository.update isDevelopment tableName entityName id updates e' w1).2
  = table w1.
Proof.
  intros Hobj Hf Hnow w1. subst w1.
  destruct (update_cases isDevelopment tableName entityName id updates e'
              (BaseRepository.update isDevelopment tableName entityName id updates e w).2)
    as [(err & _ & Ht & _)|(mid & Hmid & _ & Hr)]; [done|].
  rewrite Hr. simpl. rewrite Hnow.
  rewrite update_run in * by done.
  destruct (table w !! id) as [old|] eqn:Hold; simpl in *.
  - rewrite lookup_insert_eq in Hmid. injection Hmid as <-.
    rewrite apply_set_idem by (by apply assignments_NoDup, obj_set_is_object).
    apply insert_insert_eq.
  - by rewrite Hold in Hmid.
Qed.

Lemma update_retry_harmless_witness :
  let w1 := (BaseRepository.update false "fitit-products" "Product" "p1"
               [("price", VNum 2499)] tuesday oneHammer).2 in
  table (BaseRepository.update false "fitit-products" "Product" "p1"
           [("price", VNum 2499)] tuesday w1).2 = table w1.
Proof.
  intros w1.
  apply (update_retry_harmless false "fitit-products" "Product" "p1"
           [("price", VNum 2499)] tuesday tuesday oneHammer).
  - unfold is_object. apply (bool_decide_unpack _). vm_compute. reflexivity.
  - reflexivity.
  - reflexivity.
Defined.

(** ** Creating and listing *)



(** ** The logger *)

(** X16: in production a DEBUG line is dropped and the console is left as
    it was; every other line, and in development every line, is written
    once at the end of the console, to [console.error] when it is an ERROR,
    to [console.warn] when it is a WARN and to [console.log] otherwise,
    with the level, message, data and correlation id it was given. *)
Theorem log_gating (isDevelopment : bool) (level : Logger.LogLevel) (message : string)
    (data : option JsObject) (correlationId : option string) (timestamp : string)
    (out : Logger.Console) :
  (isDevelopment = false -> level = Logger.DEBUG ->
     Logger.log isDevelopment level message data correlationId timestamp out = out)
  /\ (isDevelopment = true \/ level <> Logger.DEBUG ->
      exists stream,
        Logger.log isDevelopment level message data correlationId timestamp out
          = (out ++ [(stream,
                      Logger.mkLogEntry timestamp level message correlationId data)])%list
        /\ (stream = Logger.console_error <-> level = Logger.ERROR)
        /\ (stream = Logger.console_warn <-> level = Logger.WARN)).
Proof.
  split.
  - intros -> ->. reflexivity.
  - intros Hon.
    destruct isDevelopment, level;
      try (destruct Hon as [Hon|Hon]; [discriminate Hon | by destruct Hon]);
      eexists; (split; [reflexivity|]); split; split; done.
Qed.

Lemma log_gating_witness :
  Logger.log false Logger.DEBUG "cache miss" None None "2026-01-06T09:00:00.000Z" [] = []
  /\ exists stream,
       Logger.log false Logger.WARN "slow scan" None (Some "req-7")
         "2026-01-06T09:00:00.000Z" []
       = [(stream,
           Logger.mkLogEntry "2026-01-06T09:00:00.000Z" Logger.WARN "slow scan"
             (Some "req-7") None)].
Proof.
  split.
  - apply (log_gating false Logger.DEBUG "cache miss" None None
             "2026-01-06T09:00:00.000Z" []); reflexivity.
  - destruct (log_gating false Logger.WARN "slow scan" None (Some "req-7")
                "2026-01-06T09:00:00.000Z" []) as [_ H].
    destruct H as (stream & Hlog & _); [right; discriminate|].
    exists stream. exact Hlog.
Defined.

(** ** The dashboard's local fallbacks *)

Lemma obj_set_obj_set k v (o : JsObject) : obj_set k v (obj_set k v o) = obj_set k v o.
Proof.
  induction o as [|[k0 v0] o IH]; simpl.
  - by rewrite decide_True.
  - destruct (decide (k0 = k)) as [->|Hne]; simpl.
    + by rewrite decide_True.
    + by rewrite decide_False, IH.
Qed.

Lemma hasId_obj_set_status id v (req : JsObject) :
  Dashboard.hasId id (obj_set "status" v req) = Dashboard.hasId id req.
Proof. unfold Dashboard.hasId. by rewrite obj_get_obj_set_ne. Qed.

Lemma isOpen_in_progress (req : JsObject) :
  Dashboard.isOpen (obj_set "status" (VStr "IN_PROGRESS") req) = false.
Proof. unfold Dashboard.isOpen. by rewrite obj_get_obj_set. Qed.

(** X17: the local fallback of [acceptJob] keeps the list as long as it
    was and every request in its place; a request with another id is left
    as it is; a request with the id given ends IN_PROGRESS whatever its
    status was, with its other fields as they were, and is no longer among
    the open requests; the open requests never grow in number, and
    accepting the same job once more changes nothing. *)
Theorem acceptJobLocally_effect (id : string) (prev : list JsObject) :
  let next := Dashboard.acceptJobLocally id prev in
  length next = length prev
  /\ (forall i req, prev !! i = Some req -> Dashboard.hasId id req = false ->
        next !! i = Some req)
  /\ (forall i req, prev !! i = Some req -> Dashboard.hasId id req = true ->
        exists req',
          next !! i = Some req'
          /\ obj_get "status" req' = Some (VStr "IN_PROGRESS")
          /\ (forall k, k <> "status" -> obj_get k req' = obj_get k req)
          /\ Dashboard.isOpen req' = false)
  /\ length (Dashboard.openRequests next) <= length (Dashboard.openRequests prev)
  /\ Dashboard.acceptJobLocally id next = next.
Proof.
  intros next. subst next. unfold Dashboard.acceptJobLocally.
  split; [apply length_fmap|]. split; [|split; [|split]].
  - intros i req Hi Hno. rewrite list_lookup_fmap, Hi. simpl. by rewrite Hno.
  - intros i req Hi Hyes. rewrite list_lookup_fmap, Hi. simpl. rewrite Hyes.
    eexists. split; [reflexivity|]. split; [apply obj_get_obj_set|].
    split; [intros k Hk; by apply obj_get_obj_set_ne | apply isOpen_in_progress].
  - unfold Dashboard.openRequests.
    induction prev as [|req prev IH]; simpl; [done|].
    destruct (Dashboard.hasId id req).
    + rewrite isOpen_in_progress.
      destruct (Dashboard.isOpen req); simpl; [apply Nat.le_le_succ_r|]; exact IH.
    + destruct (Dashboard.isOpen req); simpl; [apply le_n_S|]; exact IH.
  - rewrite <- list_fmap_compose. apply list_fmap_ext. intros i req _. simpl.
    destruct (Dashboard.hasId id req) eqn:Hid.
    + by rewrite hasId_obj_set_status, Hid, obj_set_obj_set.
    + by rewrite Hid.
Qed.

Lemma acceptJobLocally_effect_witness :
  exists req',
    Dashboard.acceptJobLocally "r1"
      [Dashboard.newReq "r1" "1/6/2026" "Leaking tap" "Plumbing";
       Dashboard.newReq "r2" "1/6/2026" "Broken socket" "Electrical"] !! 0 = Some req'
    /\ obj_get "status" req' = Some (VStr "IN_PROGRESS")
    /\ obj_get "description" req' = Some (VStr "Leaking tap").
Proof.
  destruct (acceptJobLocally_effect "r1"
    [Dashboard.newReq "r1" "1/6/2026" "Leaking tap" "Plumbing";
     Dashboard.newReq "r2" "1/6/2026" "Broken socket" "Electrical"])
    as (_ & _ & H & _).
  destruct (H 0 (Dashboard.newReq "r1" "1/6/2026" "Leaking tap" "Plumbing"))
    as (req' & Hi & Hs & Hk & _); [reflexivity | reflexivity |].
  exists req'. split; [exact Hi|]. split; [exact Hs|].
  rewrite Hk by discriminate. reflexivity.
Defined.

(** X18: a request posted through the local fallback of [postJob] is
    first among the open requests and first among the requests of the
    current user, each of which grows by exactly that one; once it is
    accepted through the local fallback of [acceptJob] the open requests
    are the ones that accepting that id leaves of the earlier list, while
    the list of the current user still starts with it. *)
Theorem postJobLocally_effect (id date desc cat : string) (prev : list JsObject) :
  let next := Dashboard.postJobLocally id date desc cat prev in
  Dashboard.openRequests next
    = Dashboard.newReq id date desc cat :: Dashboard.openRequests prev
  /\ Dashboard.myRequests next
     = Dashboard.newReq id date desc cat :: Dashboard.myRequests prev
  /\ Dashboard.openRequests (Dashboard.acceptJobLocally id next)
     = Dashboard.openRequests (Dashboard.acceptJobLocally id prev)
  /\ exists accepted,
       Dashboard.myRequests (Dashboard.acceptJobLocally id next)
         = accepted :: Dashboard.myRequests (Dashboard.acceptJobLocally id prev)
       /\ obj_get "status" accepted = Some (VStr "IN_PROGRESS")
       /\ obj_get "description" accepted = Some (VStr desc)
       /\ obj_get "category" accepted = Some (VStr cat).
Proof.
  intros next. subst next.
  assert (Dashboard.hasId id (Dashboard.newReq id date desc cat) = true) as Hid.
  { unfold Dashboard.hasId. simpl. by rewrite bool_decide_eq_true_2. }
  split; [reflexivity|]. split; [reflexivity|].
  unfold Dashboard.postJobLocally, Dashboard.acceptJobLocally.
  rewrite fmap_cons, Hid. split; [reflexivity|].
  eexists. split; [reflexivity|]. repeat split.
Qed.
